(** * topicsync (chatroom): changes, topics and their reversibility

    A shallow embedding of [src/chatroom/change.py] and [src/chatroom/topic.py].

    Python objects are modelled by their content.  Where the source mutates an
    object (the change itself, the dict handed to [apply], the topic's
    [_value]) the mutated object is threaded explicitly: every embedded method
    returns the state of the objects it may have written to next to its
    result, on the normal and on the exceptional path alike. *)

From Stdlib Require Import ZArith List String Ascii Bool Lia Permutation.
From Stdlib Require Import DecimalString.
From Stdlib Require DecimalPos DecimalFacts.
From Stdlib Require Import SpecFloat.
Import ListNotations.
Open Scope string_scope.
Open Scope Z_scope.

(** ** Python values

    The values a topic holds are what [json] can carry: [None], booleans,
    integers, strings, lists and dicts with string keys.  A dict is kept as the
    list of its items in insertion order, which is the order Python iterates
    and prints them in.  Floats are not part of [pyval]: every statement over
    [pyval] is about values without a float in them, on which [==] is
    reflexive.  The float [AddChange] and the whole-value Set of a float
    topic are treated on their own in [FloatArith] below, where a NaN differs
    from itself. *)

Unset Elimination Schemes.
Inductive pyval : Type :=
| VNone
| VBool (b : bool)
| VInt (z : Z)
| VStr (s : string)
| VList (items : list pyval)
| VDict (entries : list (string * pyval)).
Set Elimination Schemes.

(** Exceptions the embedded code can raise.  [InvalidChangeError] carries the
    [reason] string's tag only: the message text never influences control. *)
Inductive reason :=
| WouldCreateDuplicate
| CannotRemove
| KeyNotInDict
| NotValidForTopic
| PositionOutOfRange
| SubstringMismatch.

(** What a field that is not restricted to JSON values can hold: a value, or a
    draw of [uuid.uuid4()], as the UUID object or as its [str].  The draws are
    numbered; the random source is threaded as the number of the next draw. *)
Inductive pyobj :=
| OVal (v : pyval)
| OUuidStr (n : nat)
| OUuid (n : nat).

Inductive exn :=
| InvalidChangeError (r : reason)
| AssertionError
| TypeError
| KeyError (k : pyobj)
| AttributeError
| NotImplementedError
| JSONDecodeError
| Exception_ (msg : string)
| ListenerError (n : nat).

Inductive res (A : Type) :=
| Ok (a : A)
| Raise (e : exn).
Arguments Ok {A} a.
Arguments Raise {A} e.

Definition bind {A B} (r : res A) (k : A -> res B) : res B :=
  match r with
  | Ok a => k a
  | Raise e => Raise e
  end.

Notation "x <- r ;; k" := (bind r (fun x => k))
  (at level 61, r at next level, right associativity).

Definition is_invalid_change {A} (r : res A) : bool :=
  match r with
  | Raise (InvalidChangeError _) => true
  | _ => false
  end.

(** *** Dict items *)

Fixpoint dict_get (k : string) (d : list (string * pyval)) : option pyval :=
  match d with
  | [] => None
  | (k', v) :: d' => if String.eqb k k' then Some v else dict_get k d'
  end.

Definition dict_contains (k : string) (d : list (string * pyval)) : bool :=
  match dict_get k d with
  | Some _ => true
  | None => false
  end.

(** [d[k] = v]: an existing key keeps its place, a new key goes last. *)
Fixpoint dict_set (k : string) (v : pyval) (d : list (string * pyval))
  : list (string * pyval) :=
  match d with
  | [] => [(k, v)]
  | (k', v') :: d' =>
      if String.eqb k k' then (k', v) :: d' else (k', v') :: dict_set k v d'
  end.

(** [del d[k]] / the dict left by [d.pop(k)]. *)
Fixpoint dict_del (k : string) (d : list (string * pyval))
  : list (string * pyval) :=
  match d with
  | [] => []
  | (k', v') :: d' =>
      if String.eqb k k' then d' else (k', v') :: dict_del k d'
  end.

Definition dict_keys (d : list (string * pyval)) : list string := map fst d.

(** *** Equality ([==]) on values

    Python compares booleans and integers numerically ([True == 1]), lists
    item by item, and dicts regardless of insertion order. *)

Definition as_number (v : pyval) : option Z :=
  match v with
  | VBool b => Some (Z.b2z b)
  | VInt z => Some z
  | _ => None
  end.

Fixpoint py_eq (a b : pyval) {struct a} : bool :=
  match a, b with
  | VNone, VNone => true
  | VBool x, VBool y => Bool.eqb x y
  | VBool x, VInt y => Z.b2z x =? y
  | VInt x, VBool y => x =? Z.b2z y
  | VInt x, VInt y => x =? y
  | VStr s, VStr t => String.eqb s t
  | VList l, VList m =>
      (fix go (l m : list pyval) {struct l} : bool :=
         match l, m with
         | [], [] => true
         | x :: l', y :: m' => py_eq x y && go l' m'
         | _, _ => false
         end) l m
  | VDict d, VDict e =>
      (List.length d =? List.length e)%nat &&
      (fix go (d : list (string * pyval)) {struct d} : bool :=
         match d with
         | [] => true
         | (k, x) :: d' =>
             match dict_get k e with
             | Some y => py_eq x y
             | None => false
             end && go d'
         end) d
  | _, _ => false
  end.

Definition py_ne (a b : pyval) : bool := negb (py_eq a b).

(** [copy.deepcopy]: a fresh object with the same content.  Content is all a
    [pyval] has, so the copy is the value itself; what the copy buys in
    Python, that a write to it is not seen through the original, is modelled
    by the explicit threading of the written objects.  The interpreter's
    recursion limit is not modelled: on a value nested deeper than that limit
    [copy.deepcopy] raises [RecursionError], which no statement here covers. *)
Definition deepcopy (v : pyval) : pyval := v.

(** A well-formed value has no dict with a repeated key. *)
Fixpoint nodup_keys (ks : list string) : bool :=
  match ks with
  | [] => true
  | k :: ks' => negb (existsb (String.eqb k) ks') && nodup_keys ks'
  end.

Fixpoint wf (v : pyval) : bool :=
  match v with
  | VList l =>
      (fix go (l : list pyval) : bool :=
         match l with
         | [] => true
         | x :: l' => wf x && go l'
         end) l
  | VDict d =>
      nodup_keys (dict_keys d) &&
      (fix go (d : list (string * pyval)) : bool :=
         match d with
         | [] => true
         | (_, x) :: d' => wf x && go d'
         end) d
  | _ => true
  end.

(** *** Operators and methods used by the changes *)

(** [x in container] *)
Fixpoint is_substring (needle hay : string) : bool :=
  String.prefix needle hay ||
  match hay with
  | EmptyString => false
  | String _ hay' => is_substring needle hay'
  end.

Definition py_contains (x container : pyval) : res bool :=
  match container with
  | VList l => Ok (existsb (fun e => py_eq e x) l)
  | VDict d =>
      match x with
      | VStr k => Ok (dict_contains k d)
      | VList _ | VDict _ => Raise TypeError
      | _ => Ok false
      end
  | VStr s =>
      match x with
      | VStr t => Ok (is_substring t s)
      | _ => Raise TypeError
      end
  | _ => Raise TypeError
  end.

(** [a + b] *)
Definition py_add (a b : pyval) : res pyval :=
  match as_number a, as_number b with
  | Some x, Some y => Ok (VInt (x + y))
  | _, _ =>
      match a, b with
      | VStr s, VStr t => Ok (VStr (s ++ t))
      | VList l, VList m => Ok (VList (l ++ m))
      | _, _ => Raise TypeError
      end
  end.

(** [-a] *)
Definition py_neg (a : pyval) : res pyval :=
  match as_number a with
  | Some x => Ok (VInt (- x))
  | None => Raise TypeError
  end.

(** [l.remove(x)]: drops the first item equal to [x]. *)
Fixpoint list_remove (x : pyval) (l : list pyval) : list pyval :=
  match l with
  | [] => []
  | e :: l' => if py_eq e x then l' else e :: list_remove x l'
  end.

(** [container[key]] for a string key. *)
Definition py_getitem (container : pyval) (k : string) : res pyval :=
  match container with
  | VDict d =>
      match dict_get k d with
      | Some v => Ok v
      | None => Raise (KeyError (OVal (VStr k)))
      end
  | _ => Raise TypeError
  end.

(** [container[key] = v] for a string key: the content of [container]
    afterwards. *)
Definition py_setitem (container : pyval) (k : string) (v : pyval) : res pyval :=
  match container with
  | VDict d => Ok (VDict (dict_set k v d))
  | _ => Raise TypeError
  end.

(** [container.pop(key)] for a string key: the popped value and the content of
    [container] afterwards. *)
Definition py_pop (container : pyval) (k : string) : res (pyval * pyval) :=
  match container with
  | VDict d =>
      match dict_get k d with
      | Some v => Ok (v, VDict (dict_del k d))
      | None => Raise (KeyError (OVal (VStr k)))
      end
  | VList _ => Raise TypeError
  | _ => Raise AttributeError
  end.

(** [iter(v)] *)
Definition py_iter (v : pyval) : res (list pyval) :=
  match v with
  | VList l => Ok l
  | VStr s => Ok (map (fun c => VStr (String c EmptyString)) (list_ascii_of_string s))
  | VDict d => Ok (map VStr (dict_keys d))
  | _ => Raise TypeError
  end.

(** ** [json.dumps] and [json.loads]

    [SetTopic.notify_listeners] compares the old and the new list through the
    JSON text of their items.  Strings are taken as sequences of code points
    below 256. *)

Definition hex_digit (n : N) : ascii :=
  match n with
  | 0%N => "0" | 1%N => "1" | 2%N => "2" | 3%N => "3" | 4%N => "4"
  | 5%N => "5" | 6%N => "6" | 7%N => "7" | 8%N => "8" | 9%N => "9"
  | 10%N => "a" | 11%N => "b" | 12%N => "c" | 13%N => "d" | 14%N => "e"
  | _ => "f"
  end%char.

Definition is_printable (c : ascii) : bool :=
  let n := N_of_ascii c in ((32 <=? n) && (n <=? 126))%N.

(** [json.encoder.py_encode_basestring_ascii], one character. *)
Definition escape_char (c : ascii) : string :=
  let n := N_of_ascii c in
  if (n =? 92)%N then "\\"
  else if (n =? 34)%N then String "\" (String (ascii_of_N 34) EmptyString)
  else if (n =? 8)%N then "\b"
  else if (n =? 12)%N then "\f"
  else if (n =? 10)%N then "\n"
  else if (n =? 13)%N then "\r"
  else if (n =? 9)%N then "\t"
  else if is_printable c then String c EmptyString
  else String "\" (String "u" (String "0" (String "0"
         (String (hex_digit (n / 16)) (String (hex_digit (n mod 16)) EmptyString))))).

Fixpoint escape_string (s : string) : string :=
  match s with
  | EmptyString => EmptyString
  | String c s' => escape_char c ++ escape_string s'
  end.

Definition quote : string := String (ascii_of_N 34) EmptyString.

Definition dumps_str (s : string) : string := quote ++ escape_string s ++ quote.

Definition dumps_int (z : Z) : string := NilEmpty.string_of_int (Z.to_int z).

(** Since Python 3.11 an int of more than [sys.get_int_max_str_digits()]
    decimal digits, 4300 unless configured, is neither printed nor read:
    [json.dumps] and [json.loads] raise [ValueError] on it.  [dumps_int] and
    [json_loads] below have no such limit; [ints_in_limit] says that a value
    stays within it. *)
Definition max_str_digits : Z := 4300.

Definition int_in_limit (z : Z) : bool := Z.abs z <? 10 ^ max_str_digits.

Fixpoint ints_in_limit (v : pyval) : bool :=
  match v with
  | VInt z => int_in_limit z
  | VList l =>
      (fix go (l : list pyval) : bool :=
         match l with
         | [] => true
         | x :: l' => ints_in_limit x && go l'
         end) l
  | VDict d =>
      (fix go (d : list (string * pyval)) : bool :=
         match d with
         | [] => true
         | (_, x) :: d' => ints_in_limit x && go d'
         end) d
  | _ => true
  end.

Fixpoint join (sep : string) (l : list string) : string :=
  match l with
  | [] => EmptyString
  | [x] => x
  | x :: l' => x ++ sep ++ join sep l'
  end.

Fixpoint json_dumps (v : pyval) : string :=
  match v with
  | VNone => "null"
  | VBool true => "true"
  | VBool false => "false"
  | VInt z => dumps_int z
  | VStr s => dumps_str s
  | VList l =>
      "[" ++ join ", "
               ((fix go (l : list pyval) : list string :=
                   match l with
                   | [] => []
                   | x :: l' => json_dumps x :: go l'
                   end) l) ++ "]"
  | VDict d =>
      "{" ++ join ", "
               ((fix go (d : list (string * pyval)) : list string :=
                   match d with
                   | [] => []
                   | (k, x) :: d' => (dumps_str k ++ ": " ++ json_dumps x) :: go d'
                   end) d) ++ "}"
  end.

(** The decoder.  A number with a fraction or an exponent, and a [\u] escape
    above code point 255, denote objects [pyval] does not hold: [json.loads]
    returns a float or a wider string there, where this decoder answers
    [JSONDecodeError].  No statement below relies on that answer: every one
    of them decodes a text that [json_dumps] printed, where neither occurs. *)

Definition is_ws (c : ascii) : bool :=
  let n := N_of_ascii c in ((n =? 32) || (n =? 9) || (n =? 10) || (n =? 13))%N.

Fixpoint skip_ws (s : string) : string :=
  match s with
  | String c s' => if is_ws c then skip_ws s' else s
  | EmptyString => s
  end.

Definition digit_val (c : ascii) : option Z :=
  let n := N_of_ascii c in
  if ((48 <=? n) && (n <=? 57))%N then Some (Z.of_N (n - 48)) else None.

Definition hex_val (c : ascii) : option N :=
  let n := N_of_ascii c in
  if ((48 <=? n) && (n <=? 57))%N then Some (n - 48)%N
  else if ((97 <=? n) && (n <=? 102))%N then Some (n - 87)%N
  else if ((65 <=? n) && (n <=? 70))%N then Some (n - 55)%N
  else None.

(** The characters of a string literal after its opening quote, up to and
    without the closing one. *)
Fixpoint loads_str (s : string) : res (string * string) :=
  match s with
  | EmptyString => Raise JSONDecodeError
  | String c rest =>
      let n := N_of_ascii c in
      if (n =? 34)%N then Ok (EmptyString, rest)
      else if (n =? 92)%N then
        match rest with
        | String e rest' =>
            let m := N_of_ascii e in
            let simple (ch : N) :=
              r <- loads_str rest' ;;
              Ok (String (ascii_of_N ch) (fst r), snd r) in
            if (m =? 34)%N then simple 34%N
            else if (m =? 92)%N then simple 92%N
            else if (m =? 47)%N then simple 47%N
            else if (m =? 98)%N then simple 8%N
            else if (m =? 102)%N then simple 12%N
            else if (m =? 110)%N then simple 10%N
            else if (m =? 114)%N then simple 13%N
            else if (m =? 116)%N then simple 9%N
            else if (m =? 117)%N then
              match rest' with
              | String a (String b (String c1 (String c2 rest''))) =>
                  match hex_val a, hex_val b, hex_val c1, hex_val c2 with
                  | Some 0%N, Some 0%N, Some h, Some l =>
                      r <- loads_str rest'' ;;
                      Ok (String (ascii_of_N (16 * h + l)) (fst r), snd r)
                  | _, _, _, _ => Raise JSONDecodeError
                  end
              | _ => Raise JSONDecodeError
              end
            else Raise JSONDecodeError
        | EmptyString => Raise JSONDecodeError
        end
      else if (n <? 32)%N then Raise JSONDecodeError
      else
        r <- loads_str rest ;;
        Ok (String c (fst r), snd r)
  end.

(** The digits at the head of [s], read into [acc]. *)
Fixpoint loads_digits (acc : Z) (s : string) : Z * string :=
  match s with
  | String c rest =>
      match digit_val c with
      | Some d => loads_digits (10 * acc + d) rest
      | None => (acc, s)
      end
  | EmptyString => (acc, s)
  end.

Definition starts_float_part (s : string) : bool :=
  match s with
  | String c _ =>
      let n := N_of_ascii c in ((n =? 46) || (n =? 101) || (n =? 69))%N
  | EmptyString => false
  end.

(** An integer literal without its sign: [0] or a digit string that does not
    start with [0]. *)
Definition loads_nat (s : string) : res (Z * string) :=
  match s with
  | String c rest =>
      match digit_val c with
      | Some 0 => if starts_float_part rest then Raise JSONDecodeError
                  else Ok (0, rest)
      | Some d =>
          let r := loads_digits d rest in
          if starts_float_part (snd r) then Raise JSONDecodeError else Ok r
      | None => Raise JSONDecodeError
      end
  | EmptyString => Raise JSONDecodeError
  end.

Definition expect (c : N) (s : string) : res string :=
  match s with
  | String c' rest => if (N_of_ascii c' =? c)%N then Ok rest else Raise JSONDecodeError
  | EmptyString => Raise JSONDecodeError
  end.

Section Decoder.
Variable loads_value : string -> res (pyval * string).

(** The items of an array after the first one has been located: [s] starts
    at an item. *)
Fixpoint loads_items (fuel : nat) (s : string) : res (list pyval * string) :=
  match fuel with
  | O => Raise JSONDecodeError
  | S fuel' =>
      r <- loads_value s ;;
      let rest := skip_ws (snd r) in
      match rest with
      | String c rest' =>
          if (N_of_ascii c =? 93)%N then Ok ([fst r], rest')
          else if (N_of_ascii c =? 44)%N then
            t <- loads_items fuel' (skip_ws rest') ;;
            Ok (fst r :: fst t, snd t)
          else Raise JSONDecodeError
      | EmptyString => Raise JSONDecodeError
      end
  end.

(** The pairs of an object: [s] starts at the opening quote of a key. *)
Fixpoint loads_pairs (fuel : nat) (s : string)
  : res (list (string * pyval) * string) :=
  match fuel with
  | O => Raise JSONDecodeError
  | S fuel' =>
      s1 <- expect 34 s ;;
      k <- loads_str s1 ;;
      s2 <- expect 58 (skip_ws (snd k)) ;;
      r <- loads_value (skip_ws s2) ;;
      let rest := skip_ws (snd r) in
      match rest with
      | String c rest' =>
          if (N_of_ascii c =? 125)%N then Ok ([(fst k, fst r)], rest')
          else if (N_of_ascii c =? 44)%N then
            t <- loads_pairs fuel' (skip_ws rest') ;;
            Ok ((fst k, fst r) :: fst t, snd t)
          else Raise JSONDecodeError
      | EmptyString => Raise JSONDecodeError
      end
  end.
End Decoder.

(** [dict(pairs)]: a later pair with the same key overwrites the value. *)
Definition dict_of_pairs (ps : list (string * pyval)) : list (string * pyval) :=
  fold_left (fun d kv => dict_set (fst kv) (snd kv) d) ps [].

Fixpoint loads_value (fuel : nat) (s : string) : res (pyval * string) :=
  match fuel with
  | O => Raise JSONDecodeError
  | S fuel' =>
      match s with
      | EmptyString => Raise JSONDecodeError
      | String c rest =>
          let n := N_of_ascii c in
          if (n =? 34)%N then
            r <- loads_str rest ;; Ok (VStr (fst r), snd r)
          else if (n =? 91)%N then
            match skip_ws rest with
            | String c' rest' =>
                if (N_of_ascii c' =? 93)%N then Ok (VList [], rest')
                else
                  r <- loads_items (loads_value fuel') fuel' (skip_ws rest) ;;
                  Ok (VList (fst r), snd r)
            | EmptyString => Raise JSONDecodeError
            end
          else if (n =? 123)%N then
            match skip_ws rest with
            | String c' rest' =>
                if (N_of_ascii c' =? 125)%N then Ok (VDict [], rest')
                else
                  r <- loads_pairs (loads_value fuel') fuel' (skip_ws rest) ;;
                  Ok (VDict (dict_of_pairs (fst r)), snd r)
            | EmptyString => Raise JSONDecodeError
            end
          else if String.prefix "null" s then Ok (VNone, String.substring 4 (String.length s - 4) s)
          else if String.prefix "true" s then Ok (VBool true, String.substring 4 (String.length s - 4) s)
          else if String.prefix "false" s then Ok (VBool false, String.substring 5 (String.length s - 5) s)
          else if (n =? 45)%N then
            r <- loads_nat rest ;; Ok (VInt (- fst r), snd r)
          else
            r <- loads_nat s ;; Ok (VInt (fst r), snd r)
      end
  end.

Definition json_loads (s : string) : res pyval :=
  r <- loads_value (S (String.length s)) (skip_ws s) ;;
  match skip_ws (snd r) with
  | EmptyString => Ok (fst r)
  | _ => Raise JSONDecodeError
  end.

(** ** change.py *)

(** [str(uuid.uuid4())] when no id is given. *)
Definition new_id (id : option pyobj) (rng : nat) : pyobj * nat :=
  match id with
  | None => (OUuidStr rng, S rng)
  | Some i => (i, rng)
  end.

(** The classes derived from [SetChange]: the class itself and the one each
    [...ChangeTypes] namespace declares. *)
Inductive set_class :=
| BaseSetChange
| GenericSetChange
| StringSetChange
| IntSetChange
| FloatSetChange
| SetSetChange
| DictSetChange.

(** A change object: its class and its attributes.  [topic_name] and [key] are
    strings, as every caller passes them. *)
Inductive change :=
| NullChange (topic_name : string) (id : pyobj)
| SetChange (cls : set_class) (topic_name : string) (value old_value : pyval)
    (id : pyobj)
| IntAddChange (topic_name : string) (value : pyval) (id : pyobj)
| FloatAddChange (topic_name : string) (value : pyval) (id : pyobj)
| AppendChange (topic_name : string) (item : pyval) (id : pyobj)
| RemoveChange (topic_name : string) (item : pyval) (id : pyobj)
| DictAddChange (topic_name : string) (key : string) (value : pyval)
    (id : pyobj)
| DictRemoveChange (topic_name : string) (key : string) (value : pyval)
    (id : pyobj)
| ChangeValueChange (topic_name : string) (key : string)
    (value old_value : pyval) (id : pyobj)
| EmitChange (topic_name : string) (args forward_info : pyval) (id : pyobj)
| ReversedEmitChange (topic_name : string) (args forward_info : pyval)
    (id : pyobj).

Definition change_id (c : change) : pyobj :=
  match c with
  | NullChange _ id | SetChange _ _ _ _ id | IntAddChange _ _ id
  | FloatAddChange _ _ id | AppendChange _ _ id | RemoveChange _ _ id
  | DictAddChange _ _ _ id | DictRemoveChange _ _ _ id
  | ChangeValueChange _ _ _ _ id | EmitChange _ _ _ id
  | ReversedEmitChange _ _ _ id => id
  end.

Definition change_topic_name (c : change) : string :=
  match c with
  | NullChange tn _ | SetChange _ tn _ _ _ | IntAddChange tn _ _
  | FloatAddChange tn _ _ | AppendChange tn _ _ | RemoveChange tn _ _
  | DictAddChange tn _ _ _ | DictRemoveChange tn _ _ _
  | ChangeValueChange tn _ _ _ _ | EmitChange tn _ _ _
  | ReversedEmitChange tn _ _ _ => tn
  end.

(** *** Constructors ([__init__]) *)

Definition mk_NullChange (topic_name : string) (id : option pyobj) (rng : nat)
  : change * nat :=
  let (i, rng') := new_id id rng in (NullChange topic_name i, rng').

Definition mk_SetChange (cls : set_class) (topic_name : string) (value : pyval)
  (old_value : pyval) (id : option pyobj) (rng : nat) : change * nat :=
  let (i, rng') := new_id id rng in
  (SetChange cls topic_name (deepcopy value) (deepcopy old_value) i, rng').

Definition mk_IntAddChange (topic_name : string) (value : pyval)
  (id : option pyobj) (rng : nat) : change * nat :=
  let (i, rng') := new_id id rng in (IntAddChange topic_name value i, rng').

Definition mk_FloatAddChange (topic_name : string) (value : pyval)
  (id : option pyobj) (rng : nat) : change * nat :=
  let (i, rng') := new_id id rng in (FloatAddChange topic_name value i, rng').

Definition mk_AppendChange (topic_name : string) (item : pyval)
  (id : option pyobj) (rng : nat) : change * nat :=
  let (i, rng') := new_id id rng in (AppendChange topic_name item i, rng').

Definition mk_RemoveChange (topic_name : string) (item : pyval)
  (id : option pyobj) (rng : nat) : change * nat :=
  let (i, rng') := new_id id rng in (RemoveChange topic_name item i, rng').

Definition mk_DictAddChange (topic_name key : string) (value : pyval)
  (id : option pyobj) (rng : nat) : change * nat :=
  let (i, rng') := new_id id rng in (DictAddChange topic_name key value i, rng').

Definition mk_DictRemoveChange (topic_name key : string)
  (id : option pyobj) (rng : nat) : change * nat :=
  let (i, rng') := new_id id rng in
  (DictRemoveChange topic_name key VNone i, rng').

Definition mk_ChangeValueChange (topic_name key : string)
  (value old_value : pyval) (id : option pyobj) (rng : nat) : change * nat :=
  let (i, rng') := new_id id rng in
  (ChangeValueChange topic_name key value old_value i, rng').

Definition mk_EmitChange (topic_name : string) (args : pyval)
  (id : option pyobj) (rng : nat) : change * nat :=
  let (i, rng') := new_id id rng in
  (EmitChange topic_name args (VDict []) i, rng').

Definition mk_ReversedEmitChange (topic_name : string)
  (args forward_info : pyval) (id : option pyobj) (rng : nat) : change * nat :=
  let (i, rng') := new_id id rng in
  (ReversedEmitChange topic_name args forward_info i, rng').

(** *** [apply]

    A call [change.apply(old)] can write to the change and to the object
    passed as [old]; it can draw from the random source.  The outcome holds
    the returned value or the exception, and the three afterwards. *)
Record outcome := {
  ret : res pyval;
  self_after : change;
  arg_after : pyval;
  rng_after : nat
}.

Definition apply (c : change) (old : pyval) (rng : nat) : outcome :=
  let raising e :=
    {| ret := Raise e; self_after := c; arg_after := old; rng_after := rng |} in
  let returning v :=
    {| ret := Ok v; self_after := c; arg_after := old; rng_after := rng |} in
  let pure r :=
    {| ret := r; self_after := c; arg_after := old; rng_after := rng |} in
  match c with
  | NullChange _ _ => returning old
  | SetChange cls topic_name value self_old_value id =>
      let old_value := deepcopy old in
      if py_ne self_old_value VNone && negb (py_eq old_value self_old_value)
      then raising AssertionError
      else {| ret := Ok (deepcopy value);
              self_after := SetChange cls topic_name value old_value id;
              arg_after := old;
              rng_after := rng |}
  | IntAddChange _ value _ => pure (py_add old value)
  | FloatAddChange _ value _ => pure (py_add old value)
  | AppendChange _ item _ =>
      match py_contains item old with
      | Raise e => raising e
      | Ok true => raising (InvalidChangeError WouldCreateDuplicate)
      | Ok false => pure (py_add old (VList [item]))
      end
  | RemoveChange _ item _ =>
      match py_contains item old with
      | Raise e => raising e
      | Ok false => raising (InvalidChangeError CannotRemove)
      | Ok true =>
          match old with
          | VList l => returning (VList (list_remove item l))
          | VStr _ => raising AttributeError
          | _ => raising TypeError
          end
      end
  | DictAddChange _ key value _ =>
      match py_contains (VStr key) old with
      | Raise e => raising e
      | Ok true => raising (InvalidChangeError WouldCreateDuplicate)
      | Ok false =>
          match py_setitem old key value with
          | Raise e => raising e
          | Ok old_dict =>
              {| ret := Ok old_dict; self_after := c;
                 arg_after := old_dict; rng_after := rng |}
          end
      end
  | DictRemoveChange topic_name key _ id =>
      match py_contains (VStr key) old with
      | Raise e => raising e
      | Ok false => raising (InvalidChangeError KeyNotInDict)
      | Ok true =>
          match py_pop old key with
          | Raise e => raising e
          | Ok (popped, old_dict) =>
              {| ret := Ok old_dict;
                 self_after := DictRemoveChange topic_name key popped id;
                 arg_after := old_dict; rng_after := rng |}
          end
      end
  | ChangeValueChange topic_name key value self_old_value id =>
      match py_contains (VStr key) old with
      | Raise e => raising e
      | Ok false => raising (InvalidChangeError KeyNotInDict)
      | Ok true =>
          match py_getitem old key with
          | Raise e => raising e
          | Ok prior =>
              let (id', rng') :=
                if py_ne self_old_value prior then (OUuid rng, S rng)
                else (id, rng) in
              let self' := ChangeValueChange topic_name key value prior id' in
              match py_setitem old key value with
              | Raise e =>
                  {| ret := Raise e; self_after := self';
                     arg_after := old; rng_after := rng' |}
              | Ok old_dict =>
                  {| ret := Ok old_dict; self_after := self';
                     arg_after := old_dict; rng_after := rng' |}
              end
          end
      end
  | EmitChange _ _ _ _ => returning VNone
  | ReversedEmitChange _ _ _ _ => returning VNone
  end.

(** *** [inverse] *)

Definition inverse (c : change) (rng : nat) : res change * nat :=
  let built (p : change * nat) := (Ok (fst p), snd p) in
  match c with
  | NullChange _ _ => (Ok c, rng)
  | SetChange cls topic_name value old_value _ =>
      built (mk_SetChange cls topic_name (deepcopy old_value) (deepcopy value)
               None rng)
  | IntAddChange topic_name value _ | FloatAddChange topic_name value _ =>
      match py_neg value with
      | Raise e => (Raise e, rng)
      | Ok negated => built (mk_IntAddChange topic_name negated None rng)
      end
  | AppendChange topic_name item _ =>
      built (mk_RemoveChange topic_name item None rng)
  | RemoveChange topic_name item _ =>
      built (mk_AppendChange topic_name item None rng)
  | DictAddChange topic_name key _ _ =>
      built (mk_DictRemoveChange topic_name key None rng)
  | DictRemoveChange topic_name key value _ =>
      built (mk_DictAddChange topic_name key value None rng)
  | ChangeValueChange topic_name key value old_value _ =>
      built (mk_ChangeValueChange topic_name key old_value value None rng)
  | EmitChange topic_name args forward_info _ =>
      built (mk_ReversedEmitChange topic_name args forward_info None rng)
  | ReversedEmitChange topic_name args _ _ =>
      built (mk_EmitChange topic_name args None rng)
  end.

(** *** [serialize] and [Change.deserialize]

    The wire form is a dict from field names to objects. *)
Definition wire := list (string * pyobj).

Definition set_class_topic_type (cls : set_class) : string :=
  match cls with
  | BaseSetChange => "unknown"
  | GenericSetChange => "generic"
  | StringSetChange => "string"
  | IntSetChange => "int"
  | FloatSetChange => "float"
  | SetSetChange => "set"
  | DictSetChange => "dict"
  end.

Definition wstr (s : string) : pyobj := OVal (VStr s).

Definition serialize (c : change) : res wire :=
  match c with
  | NullChange _ _ => Raise NotImplementedError
  | SetChange cls topic_name value old_value id =>
      Ok [("topic_name", wstr topic_name);
          ("topic_type", wstr (set_class_topic_type cls));
          ("type", wstr "set"); ("value", OVal value);
          ("old_value", OVal old_value); ("id", id)]
  | IntAddChange topic_name value id =>
      Ok [("topic_name", wstr topic_name); ("topic_type", wstr "int");
          ("type", wstr "add"); ("value", OVal value); ("id", id)]
  | FloatAddChange topic_name value id =>
      Ok [("topic_name", wstr topic_name); ("topic_type", wstr "float");
          ("type", wstr "add"); ("value", OVal value); ("id", id)]
  | AppendChange topic_name item id =>
      Ok [("topic_name", wstr topic_name); ("topic_type", wstr "set");
          ("type", wstr "append"); ("item", OVal item); ("id", id)]
  | RemoveChange topic_name item id =>
      Ok [("topic_name", wstr topic_name); ("topic_type", wstr "set");
          ("type", wstr "remove"); ("item", OVal item); ("id", id)]
  | DictAddChange topic_name key value id =>
      Ok [("topic_name", wstr topic_name); ("topic_type", wstr "dict");
          ("type", wstr "add"); ("key", wstr key); ("value", OVal value);
          ("id", id)]
  | DictRemoveChange topic_name key _ id =>
      Ok [("topic_name", wstr topic_name); ("topic_type", wstr "dict");
          ("type", wstr "remove"); ("key", wstr key); ("id", id)]
  | ChangeValueChange topic_name key value old_value id =>
      Ok [("topic_name", wstr topic_name); ("topic_type", wstr "dict");
          ("type", wstr "change_value"); ("key", wstr key);
          ("value", OVal value); ("old_value", OVal old_value); ("id", id)]
  | EmitChange topic_name args forward_info id =>
      Ok [("topic_name", wstr topic_name); ("topic_type", wstr "event");
          ("type", wstr "emit"); ("args", OVal args);
          ("forward_info", OVal forward_info); ("id", id)]
  | ReversedEmitChange topic_name args forward_info id =>
      Ok [("topic_name", wstr topic_name); ("topic_type", wstr "event");
          ("type", wstr "reversed_emit"); ("args", OVal args);
          ("forward_info", OVal forward_info); ("id", id)]
  end.

Fixpoint wire_get (k : string) (d : wire) : option pyobj :=
  match d with
  | [] => None
  | (k', o) :: d' => if String.eqb k k' then Some o else wire_get k d'
  end.

Definition remove_entry (dictionary : wire) (key : string) : wire :=
  filter (fun kv => negb (String.eqb key (fst kv))) dictionary.

(** The classes a [types] table can name. *)
Inductive change_class :=
| C_SetChange (cls : set_class)
| C_IntAddChange
| C_FloatAddChange
| C_AppendChange
| C_RemoveChange
| C_DictAddChange
| C_DictRemoveChange
| C_ChangeValueChange
| C_EmitChange
| C_ReversedEmitChange.

Definition GenericChangeTypes_types : list (string * change_class) :=
  [("set", C_SetChange GenericSetChange)].
Definition StringChangeTypes_types : list (string * change_class) :=
  [("set", C_SetChange StringSetChange)].
Definition IntChangeTypes_types : list (string * change_class) :=
  [("set", C_SetChange IntSetChange); ("add", C_IntAddChange)].
Definition FloatChangeTypes_types : list (string * change_class) :=
  [("set", C_SetChange FloatSetChange); ("add", C_FloatAddChange)].
Definition SetChangeTypes_types : list (string * change_class) :=
  [("set", C_SetChange SetSetChange); ("append", C_AppendChange);
   ("remove", C_RemoveChange)].
Definition DictChangeTypes_types : list (string * change_class) :=
  [("set", C_SetChange DictSetChange); ("add", C_DictAddChange);
   ("remove", C_DictRemoveChange)].
Definition EventChangeTypes_types : list (string * change_class) :=
  [("emit", C_EmitChange); ("reversed_emit", C_ReversedEmitChange)].

Definition type_name_to_change_types
  : list (string * list (string * change_class)) :=
  [("generic", GenericChangeTypes_types);
   ("string", StringChangeTypes_types);
   ("int", IntChangeTypes_types);
   ("float", FloatChangeTypes_types);
   ("set", SetChangeTypes_types);
   ("dict", DictChangeTypes_types);
   ("event", EventChangeTypes_types)].

Fixpoint table_get {A} (k : string) (t : list (string * A)) : option A :=
  match t with
  | [] => None
  | (k', a) :: t' => if String.eqb k k' then Some a else table_get k t'
  end.

(** [table[key]] where [key] is any object: an unhashable key is a
    [TypeError], a key the table lacks a [KeyError]. *)
Definition subscript {A} (t : list (string * A)) (key : pyobj) : res A :=
  match key with
  | OVal (VStr k) =>
      match table_get k t with
      | Some a => Ok a
      | None => Raise (KeyError key)
      end
  | OVal (VList _) | OVal (VDict _) => Raise TypeError
  | _ => Raise (KeyError key)
  end.

(** The keyword parameters of each [__init__], with whether they must be
    given. *)
Definition parameters (cl : change_class) : list (string * bool) :=
  match cl with
  | C_SetChange _ =>
      [("topic_name", true); ("value", true); ("old_value", false); ("id", false)]
  | C_IntAddChange | C_FloatAddChange =>
      [("topic_name", true); ("value", true); ("id", false)]
  | C_AppendChange | C_RemoveChange =>
      [("topic_name", true); ("item", true); ("id", false)]
  | C_DictAddChange =>
      [("topic_name", true); ("key", true); ("value", true); ("id", false)]
  | C_DictRemoveChange =>
      [("topic_name", true); ("key", true); ("id", false)]
  | C_ChangeValueChange =>
      [("topic_name", true); ("key", true); ("value", true);
       ("old_value", false); ("id", false)]
  | C_EmitChange =>
      [("topic_name", true); ("args", false); ("id", false)]
  | C_ReversedEmitChange =>
      [("topic_name", true); ("args", false); ("forward_info", false);
       ("id", false)]
  end.

(** Calling a class with the wire dict as keyword arguments binds them:
    every keyword must name a parameter and every parameter without a default
    must be given. *)
Definition binds (cl : change_class) (kwargs : wire) : bool :=
  forallb (fun kv => existsb (fun p => String.eqb (fst kv) (fst p)) (parameters cl))
          kwargs &&
  forallb (fun p => negb (snd p) ||
                    match wire_get (fst p) kwargs with
                    | Some _ => true
                    | None => false
                    end)
          (parameters cl).

(** Reading an argument into a typed attribute.  An object of another type
    than the attribute's has no counterpart in [change]; the model answers
    [TypeError] for it. *)
Definition arg_string (kwargs : wire) (k : string) : res string :=
  match wire_get k kwargs with
  | Some (OVal (VStr s)) => Ok s
  | _ => Raise TypeError
  end.

Definition arg_value (kwargs : wire) (k : string) (default : pyval) : res pyval :=
  match wire_get k kwargs with
  | Some (OVal v) => Ok v
  | Some _ => Raise TypeError
  | None => Ok default
  end.

Definition arg_id (kwargs : wire) : option pyobj :=
  match wire_get "id" kwargs with
  | Some (OVal VNone) | None => None
  | Some o => Some o
  end.

Definition construct (cl : change_class) (kwargs : wire) (rng : nat)
  : res change * nat :=
  if negb (binds cl kwargs) then (Raise TypeError, rng)
  else
    let id := arg_id kwargs in
    let built (r : res (change * nat)) : res change * nat :=
      match r with
      | Ok p => (Ok (fst p), snd p)
      | Raise e => (Raise e, rng)
      end in
    built
      (topic_name <- arg_string kwargs "topic_name" ;;
       match cl with
       | C_SetChange cls =>
           value <- arg_value kwargs "value" VNone ;;
           old_value <- arg_value kwargs "old_value" VNone ;;
           Ok (mk_SetChange cls topic_name value old_value id rng)
       | C_IntAddChange =>
           value <- arg_value kwargs "value" VNone ;;
           Ok (mk_IntAddChange topic_name value id rng)
       | C_FloatAddChange =>
           value <- arg_value kwargs "value" VNone ;;
           Ok (mk_FloatAddChange topic_name value id rng)
       | C_AppendChange =>
           item <- arg_value kwargs "item" VNone ;;
           Ok (mk_AppendChange topic_name item id rng)
       | C_RemoveChange =>
           item <- arg_value kwargs "item" VNone ;;
           Ok (mk_RemoveChange topic_name item id rng)
       | C_DictAddChange =>
           key <- arg_string kwargs "key" ;;
           value <- arg_value kwargs "value" VNone ;;
           Ok (mk_DictAddChange topic_name key value id rng)
       | C_DictRemoveChange =>
           key <- arg_string kwargs "key" ;;
           Ok (mk_DictRemoveChange topic_name key id rng)
       | C_ChangeValueChange =>
           key <- arg_string kwargs "key" ;;
           value <- arg_value kwargs "value" VNone ;;
           old_value <- arg_value kwargs "old_value" VNone ;;
           Ok (mk_ChangeValueChange topic_name key value old_value id rng)
       | C_EmitChange =>
           args <- arg_value kwargs "args" (VDict []) ;;
           Ok (mk_EmitChange topic_name args id rng)
       | C_ReversedEmitChange =>
           args <- arg_value kwargs "args" (VDict []) ;;
           forward_info <- arg_value kwargs "forward_info" (VDict []) ;;
           Ok (mk_ReversedEmitChange topic_name args forward_info id rng)
       end).

Definition deserialize (change_dict : wire) (rng : nat) : res change * nat :=
  match wire_get "type" change_dict with
  | None => (Raise (KeyError (wstr "type")), rng)
  | Some change_type =>
      match wire_get "topic_type" change_dict with
      | None => (Raise (KeyError (wstr "topic_type")), rng)
      | Some topic_type =>
          let change_dict :=
            remove_entry (remove_entry change_dict "type") "topic_type" in
          match subscript type_name_to_change_types topic_type with
          | Raise e => (Raise e, rng)
          | Ok types =>
              match subscript types change_type with
              | Raise e => (Raise e, rng)
              | Ok cl => construct cl change_dict rng
              end
          end
      end
  end.

(** *** The float [AddChange] on IEEE binary64 numbers

    [FloatChangeTypes.AddChange.apply] is [old_value + self.value] and the
    inverse adds [-self.value]; on floats both are the rounded operations. *)
Module FloatArith.
Definition prec : Z := 53.
Definition emax : Z := 1024.
Definition float_add (x y : spec_float) : spec_float := SFadd prec emax x y.
Definition float_neg (x : spec_float) : spec_float := SFopp x.
Definition apply (value old_value : spec_float) : spec_float :=
  float_add old_value value.
Definition apply_inverse (value v : spec_float) : spec_float :=
  float_add v (float_neg value).
(** The doubles written [0.1] and [0.2]. *)
Definition f0_1 : spec_float := S754_finite false 7205759403792794 (-56).
Definition f0_2 : spec_float := S754_finite false 7205759403792794 (-55).
(** [==] on floats is the IEEE comparison: a NaN is not equal to itself. *)
Definition float_eq (x y : spec_float) : bool := SFeqb x y.
Definition nan : spec_float := S754_nan.
(** [SetChange.apply] on a float topic.  [self.old_value] is [None] or a
    float, and a float is never [== None]; the result comes with the
    [old_value] the change keeps. *)
Definition set_apply (value : spec_float) (self_old_value : option spec_float)
    (old_value : spec_float) : res (spec_float * spec_float) :=
  match self_old_value with
  | Some expected =>
      if float_eq old_value expected then Ok (value, old_value)
      else Raise AssertionError
  | None => Ok (value, old_value)
  end.
(** [c.apply(v)] followed by [c.inverse().apply(...)], where [inverse()] is
    [SetChange(topic_name, self.old_value, self.value)]. *)
Definition set_round_trip (value : spec_float)
    (self_old_value : option spec_float) (v : spec_float) : res spec_float :=
  match set_apply value self_old_value v with
  | Raise e => Raise e
  | Ok (v', kept) =>
      match set_apply kept (Some value) v' with
      | Raise e => Raise e
      | Ok (back, _) => Ok back
      end
  end.
End FloatArith.

(** ** topic.py *)

Inductive pytype := py_str | py_list | py_int | py_bool | py_dict | py_NoneType.

Definition isinstance (v : pyval) (t : pytype) : bool :=
  match v, t with
  | VStr _, py_str => true
  | VList _, py_list => true
  | VInt _, py_int => true
  | VBool _, py_bool => true
  | VBool _, py_int => true
  | VDict _, py_dict => true
  | VNone, py_NoneType => true
  | _, _ => false
  end.

Definition validator := pyval -> pyval -> change -> bool.

Definition type_validator (ts : list pytype) : validator :=
  fun old_value new_value change => existsb (isinstance new_value) ts.

(** [default_topic_value], without its ['float'] entry ([0.0] is not a
    [pyval]); the topics of [topic.py] read ['string'] and ['set']. *)
Definition default_topic_value : list (string * pyval) :=
  [("generic", VNone); ("string", VStr EmptyString); ("int", VInt 0);
   ("bool", VBool false); ("set", VList []); ("list", VList []);
   ("event", VNone)].

Inductive topic_class := StringTopic | SetTopic.

(** [camel_to_snake(cls.__name__.replace('Topic',''))] *)
Definition get_type_name (cls : topic_class) : string :=
  match cls with
  | StringTopic => "string"
  | SetTopic => "set"
  end.

Record Topic := {
  topic_cls : topic_class;
  _name : string;
  _value : pyval;
  _validators : list validator
}.

Definition add_validator (t : Topic) (v : validator) : Topic :=
  {| topic_cls := topic_cls t; _name := _name t; _value := _value t;
     _validators := _validators t ++ [v] |}.

Definition set_value (t : Topic) (v : pyval) : Topic :=
  {| topic_cls := topic_cls t; _name := _name t; _value := v;
     _validators := _validators t |}.

(** [StringTopic(name, state_machine)] and [SetTopic(name, state_machine)]:
    the default value of the kind and its type validator. *)
Definition new_Topic (cls : topic_class) (name : string) : Topic :=
  let base :=
    {| topic_cls := cls; _name := name;
       _value := match table_get (get_type_name cls) default_topic_value with
                 | Some v => v
                 | None => VNone
                 end;
       _validators := [] |} in
  match cls with
  | StringTopic => add_validator base (type_validator [py_str])
  | SetTopic => add_validator base (type_validator [py_list])
  end.

Definition get_value (t : Topic) : pyval := deepcopy (_value t).

(** The changes the mutators of [SetTopic] and [StringTopic] build before
    they hand them to the state machine. *)
Definition StringTopic_set (t : Topic) (value : pyval) (rng : nat) : change * nat :=
  mk_SetChange StringSetChange (_name t) value VNone None rng.
Definition SetTopic_set (t : Topic) (value : pyval) (rng : nat) : change * nat :=
  mk_SetChange SetSetChange (_name t) value VNone None rng.
Definition SetTopic_append (t : Topic) (item : pyval) (rng : nat) : change * nat :=
  mk_AppendChange (_name t) item None rng.
Definition SetTopic_remove (t : Topic) (item : pyval) (rng : nat) : change * nat :=
  mk_RemoveChange (_name t) item None rng.

(** [InvalidChangeError.__init__(self, change, reason)] takes two arguments;
    a call with another number of them is a [TypeError]. *)
Definition new_InvalidChangeError (given : nat) : exn :=
  if (given =? 2)%nat then InvalidChangeError NotValidForTopic else TypeError.

(** The change after the call is returned with the result: [apply] may have
    written to it. *)
Definition _validate_change_and_get_result (t : Topic) (c : change) (rng : nat)
  : res pyval * change * nat :=
  let old_value := _value t in
  let o := apply c (deepcopy (_value t)) rng in
  match ret o with
  | Raise e => (Raise e, self_after o, rng_after o)
  | Ok new_value =>
      let change := self_after o in
      match find (fun v : validator => negb (v old_value new_value change))
                 (_validators t) with
      | Some _ =>
          (* the message is formatted, with [change.serialize()] in it,
             before the exception class is called with three arguments *)
          match serialize change with
          | Raise e => (Raise e, change, rng_after o)
          | Ok _ => (Raise (new_InvalidChangeError 3), change, rng_after o)
          end
      | None => (Ok new_value, change, rng_after o)
      end
  end.

(** *** Listeners *)

(** A call of one of the Actions of a topic, with its argument. *)
Inductive event :=
| on_set (new_value : pyval)
| on_append (item : pyval)
| on_remove (item : pyval).

(** Modelled from the spec: [chatroom.utils.Action] is not under src/.
    A topic's listeners are registered on its Actions; calling an Action runs
    them, and a listener may raise.  What the listeners do is a parameter of
    this type: told the calls made so far in this notification and the call
    at hand, it answers [None] when the call returns and [Some e] when a
    listener raises [e]. *)
Definition listeners := list event -> event -> option exn.

(** A Python [set] of strings: its members without repetition.  The order
    in which a loop visits them depends on the hashes; it is the parameter
    [order]. *)
Fixpoint set_of (l : list string) : list string :=
  match l with
  | [] => []
  | x :: l' => x :: filter (fun y => negb (String.eqb x y)) (set_of l')
  end.

Definition set_minus (a b : list string) : list string :=
  filter (fun x => negb (existsb (String.eqb x) b)) a.

Section Notify.
Variable L : listeners.
Variable order : list string -> list string.

Definition call (ev : event) (done : list event) : list event * option exn :=
  ((done ++ [ev])%list, L done ev).

(** [for item in items: action(json.loads(item))] *)
Fixpoint for_each (action : pyval -> event) (items : list string)
  (done : list event) : list event * option exn :=
  match items with
  | [] => (done, None)
  | item :: rest =>
      match json_loads item with
      | Raise e => (done, Some e)
      | Ok v =>
          match call (action v) done with
          | (done', Some e) => (done', Some e)
          | (done', None) => for_each action rest done'
          end
      end
  end.

Definition unsupported (cls : topic_class) : exn :=
  Exception_ ("Unsupported change type for " ++
              match cls with
              | StringTopic => "StringTopic"
              | SetTopic => "SetTopic"
              end).

(** The calls made to the Actions, in order, and the exception that ended
    the notification if one did. *)
Definition notify_listeners (cls : topic_class) (c : change)
  (old_value new_value : pyval) : list event * option exn :=
  match cls with
  | StringTopic =>
      match c with
      | SetChange StringSetChange _ _ _ _ => call (on_set new_value) []
      | _ => ([], Some (unsupported StringTopic))
      end
  | SetTopic =>
      match c with
      | SetChange SetSetChange _ _ _ _ =>
          match call (on_set new_value) [] with
          | (done, Some e) => (done, Some e)
          | (done, None) =>
              match py_iter old_value with
              | Raise e => (done, Some e)
              | Ok old_items =>
                  match py_iter new_value with
                  | Raise e => (done, Some e)
                  | Ok new_items =>
                      let old_value_set := set_of (map json_dumps old_items) in
                      let new_value_set := set_of (map json_dumps new_items) in
                      let removed_items := set_minus old_value_set new_value_set in
                      let added_items := set_minus new_value_set old_value_set in
                      match for_each on_remove (order removed_items) done with
                      | (done', Some e) => (done', Some e)
                      | (done', None) =>
                          for_each on_append (order added_items) done'
                      end
                  end
              end
          end
      | AppendChange _ item _ =>
          match call (on_set new_value) [] with
          | (done, Some e) => (done, Some e)
          | (done, None) => call (on_append item) done
          end
      | RemoveChange _ item _ =>
          match call (on_set new_value) [] with
          | (done, Some e) => (done, Some e)
          | (done, None) => call (on_remove item) done
          end
      | _ => ([], Some (unsupported SetTopic))
      end
  end.

(** [Topic.apply_change]: the returned pair or the exception, with the
    topic, the change and the random source afterwards and the calls made
    to the listeners. *)
Record applied := {
  result : res (pyval * pyval);
  topic_after : Topic;
  change_after : change;
  rng_left : nat;
  calls : list event
}.

Definition apply_change (t : Topic) (c : change) (notify : bool) (rng : nat)
  : applied :=
  let old_value := _value t in
  match _validate_change_and_get_result t c rng with
  | (Raise e, c', rng') =>
      {| result := Raise e; topic_after := t; change_after := c';
         rng_left := rng'; calls := [] |}
  | (Ok new_value, c', rng') =>
      let t1 := set_value t new_value in
      if notify then
        match notify_listeners (topic_cls t1) c' old_value (_value t1) with
        | (done, Some e) =>
            {| result := Raise e; topic_after := set_value t1 old_value;
               change_after := c'; rng_left := rng'; calls := done |}
        | (done, None) =>
            {| result := Ok (old_value, new_value); topic_after := t1;
               change_after := c'; rng_left := rng'; calls := done |}
        end
      else
        {| result := Ok (old_value, new_value); topic_after := t1;
           change_after := c'; rng_left := rng'; calls := [] |}
  end.
End Notify.

(** ** The state machine and the string operations

    [chatroom.state_machine], [StringTopic.insert]/[delete]/[get] and the
    string Insert and Delete changes are used by
    [unittest/test_string_diff_undo_redo.py] and are not under src/.  This
    module follows sections 3, 4.1 and 4.3 of the specification. *)
Module StateMachineSpec.

(** Modelled from the spec: the string operations of the Change Catalog,
    [Insert(pos, text)] and [Delete(pos, text)], missing from change.py. *)
Inductive string_op :=
| Insert (pos : nat) (text : string)
| Delete (pos : nat) (text : string).

(** Modelled from the spec: a Change is tagged with its topic and carries
    its operation and an id. *)
Record Change := {
  topic_name : string;
  op : string_op;
  id : nat
}.

(** Modelled from the spec: the parts of a string before and from a
    position, which a splice puts together. *)
Definition take (n : nat) (s : string) : string := substring 0 n s.

(** Modelled from the spec: see [take]. *)
Definition drop (n : nat) (s : string) : string :=
  substring n (String.length s - n) s.

(** Modelled from the spec: Insert splices [text] into the string at [pos]
    and fails when [pos] is out of range; Delete removes the substring
    [text] found at [pos] and fails when the substring at [pos] does not
    equal [text]. *)
Definition apply_op (o : string_op) (old : string) : res string :=
  match o with
  | Insert pos text =>
      if (pos <=? String.length old)%nat
      then Ok (take pos old ++ text ++ drop pos old)
      else Raise (InvalidChangeError PositionOutOfRange)
  | Delete pos text =>
      if String.eqb (substring pos (String.length text) old) text
      then Ok (take pos old ++ drop (pos + String.length text) old)
      else Raise (InvalidChangeError SubstringMismatch)
  end.

(** Modelled from the spec: the inverse of Insert(pos, text) is
    Delete(pos, text) and conversely. *)
Definition inverse_op (o : string_op) : string_op :=
  match o with
  | Insert pos text => Delete pos text
  | Delete pos text => Insert pos text
  end.

(** Modelled from the spec: a Transition is the ordered sequence of Changes
    of one recording scope, plus an identifier. *)
Record Transition := {
  changes : list Change;
  transition_id : nat
}.

(** Modelled from the spec: a StateMachine owns its topics by name and has
    zero or one Transition being recorded.  [forwarded] is what the
    transition callback has received (the test's [transitions] list);
    [fresh] numbers the identities handed out. *)
Record StateMachine := {
  topics : list (string * string);
  recording : option (list Change);
  forwarded : list Transition;
  fresh : nat
}.

(** Modelled from the spec: a StateMachine starts without topics and
    without an open Transition. *)
Definition new_StateMachine : StateMachine :=
  {| topics := []; recording := None; forwarded := []; fresh := O |}.

(** Modelled from the spec: [addTopic(name, kind, initialValue)] registers
    a new Topic; here a string topic. *)
Definition add_topic (m : StateMachine) (name init_value : string)
  : StateMachine :=
  {| topics := (topics m ++ [(name, init_value)])%list;
     recording := recording m; forwarded := forwarded m; fresh := fresh m |}.

(** Modelled from the spec: the topics are found by name. *)
Fixpoint lookup (name : string) (ts : list (string * string)) : option string :=
  match ts with
  | [] => None
  | (n, v) :: ts' => if String.eqb name n then Some v else lookup name ts'
  end.

(** Modelled from the spec: the value of the topic of that name is
    replaced. *)
Fixpoint store (name value : string) (ts : list (string * string))
  : list (string * string) :=
  match ts with
  | [] => []
  | (n, v) :: ts' =>
      if String.eqb name n then (n, value) :: ts'
      else (n, v) :: store name value ts'
  end.

(** Modelled from the spec: [get()] returns a snapshot of the value. *)
Definition get (m : StateMachine) (name : string) : option string :=
  lookup name (topics m).

(** Modelled from the spec: the validated single-topic apply path; the
    value changes only when the operation applies. *)
Definition apply_to_topic (m : StateMachine) (c : Change) : res StateMachine :=
  match lookup (topic_name c) (topics m) with
  | None => Raise (KeyError (OVal (VStr (topic_name c))))
  | Some old =>
      new <- apply_op (op c) old ;;
      Ok {| topics := store (topic_name c) new (topics m);
            recording := recording m; forwarded := forwarded m;
            fresh := fresh m |}
  end.

(** Modelled from the spec: sealing gives the Transition its identity and
    forwards it to the transition callback. *)
Definition seal (m : StateMachine) (cs : list Change) : StateMachine :=
  {| topics := topics m; recording := None;
     forwarded := (forwarded m ++ [{| changes := cs; transition_id := fresh m |}])%list;
     fresh := S (fresh m) |}.

(** Modelled from the spec: [applyChange(change)] applies one Change; while
    a scope is open the change is appended to the Transition being
    recorded, otherwise it is a one-Change Transition of its own. *)
Definition apply_change (m : StateMachine) (c : Change) : res StateMachine :=
  m' <- apply_to_topic m c ;;
  match recording m' with
  | Some cs =>
      Ok {| topics := topics m'; recording := Some (cs ++ [c])%list;
            forwarded := forwarded m'; fresh := fresh m' |}
  | None => Ok (seal m' [c])
  end.

(** Modelled from the spec: a mutator builds the matching Change, with a
    new id, and delegates to the owning StateMachine. *)
Definition insert (name : string) (pos : nat) (text : string)
  (m : StateMachine) : res StateMachine :=
  apply_change
    {| topics := topics m; recording := recording m;
       forwarded := forwarded m; fresh := S (fresh m) |}
    {| topic_name := name; op := Insert pos text; id := fresh m |}.

(** Modelled from the spec: the [delete(pos, text)] mutator, as [insert]. *)
Definition delete (name : string) (pos : nat) (text : string)
  (m : StateMachine) : res StateMachine :=
  apply_change
    {| topics := topics m; recording := recording m;
       forwarded := forwarded m; fresh := S (fresh m) |}
    {| topic_name := name; op := Delete pos text; id := fresh m |}.

(** Modelled from the spec: [inverse()] is a Change of the same topic that
    reverses the effect. *)
Definition inverse (c : Change) : Change :=
  {| topic_name := topic_name c; op := inverse_op (op c); id := id c |}.

(** Modelled from the spec: each change of [cs] in turn through the
    single-topic path; an error stops the run and propagates. *)
Fixpoint apply_all (m : StateMachine) (cs : list Change) : res StateMachine :=
  match cs with
  | [] => Ok m
  | c :: cs' => m' <- apply_to_topic m c ;; apply_all m' cs'
  end.

(** Modelled from the spec: the statements of a scope's body, run in order
    up to the first that raises: the machine reached, and the exception if
    any. *)
Fixpoint run (body : list (StateMachine -> res StateMachine))
  (m : StateMachine) : StateMachine * option exn :=
  match body with
  | [] => (m, None)
  | stmt :: rest =>
      match stmt m with
      | Ok m' => run rest m'
      | Raise e => (m, Some e)
      end
  end.

(** Modelled from the spec: [record()] begins collecting a Transition; on
    normal exit the Transition is sealed and forwarded to the transition
    callback; on abnormal exit every already-applied change is rolled back
    in reverse order through its inverse before the error propagates.  A
    second scope while one is open is rejected. *)
Definition record (m : StateMachine)
  (body : list (StateMachine -> res StateMachine))
  : res unit * StateMachine :=
  match recording m with
  | Some _ => (Raise (Exception_ "a recording scope is already open"), m)
  | None =>
      let opened :=
        {| topics := topics m; recording := Some [];
           forwarded := forwarded m; fresh := fresh m |} in
      match run body opened with
      | (m', None) =>
          match recording m' with
          | Some cs => (Ok tt, seal m' cs)
          | None => (Ok tt, m')
          end
      | (m', Some e) =>
          let applied_changes :=
            match recording m' with
            | Some cs => cs
            | None => []
            end in
          let closed :=
            {| topics := topics m'; recording := None;
               forwarded := forwarded m'; fresh := fresh m' |} in
          match apply_all closed (map inverse (rev applied_changes)) with
          | Ok rolled_back => (Raise e, rolled_back)
          | Raise _ => (Raise e, closed)
          end
      end
  end.

(** Modelled from the spec: [undo(transition)] applies the inverse of each
    Change in reverse order through the single-topic path and mints no new
    Transition; [redo(transition)] reapplies the originals in order. *)
Definition undo (m : StateMachine) (t : Transition) : res StateMachine :=
  apply_all m (map inverse (rev (changes t))).

(** Modelled from the spec: [redo(transition)] reapplies the original
    Changes in their order. *)
Definition redo (m : StateMachine) (t : Transition) : res StateMachine :=
  apply_all m (changes t).

End StateMachineSpec.

(** ** What the properties are stated with *)



Definition py_in (x : pyval) (l : list pyval) : bool :=
  existsb (fun e => py_eq e x) l.



Definition is_dict_write (c : change) : bool :=
  match c with
  | DictAddChange _ _ _ _ | DictRemoveChange _ _ _ _
  | ChangeValueChange _ _ _ _ _ => true
  | _ => false
  end.

Definition is_ok {A} (r : res A) : bool :=
  match r with
  | Ok _ => true
  | Raise _ => false
  end.

(** What [deserialize(c.serialize())] gives for the classes the tables list,
    [EmitChange] apart: the change itself, whose [RemoveChange.value] is
    [None] again. *)
Definition as_deserialized (c : change) : change :=
  match c with
  | DictRemoveChange topic_name key _ id => DictRemoveChange topic_name key VNone id
  | _ => c
  end.

(** The changes of the classes that [type_name_to_change_types] lists and
    whose wire form their [__init__] accepts. *)
Definition deserializable (c : change) : bool :=
  match c with
  | NullChange _ _ | SetChange BaseSetChange _ _ _ _
  | ChangeValueChange _ _ _ _ _ | EmitChange _ _ _ _ => false
  | _ => true
  end.

(** The changes [SetTopic.notify_listeners] supports. *)
Definition set_topic_change (c : change) : bool :=
  match c with
  | SetChange SetSetChange _ _ _ _ | AppendChange _ _ _ | RemoveChange _ _ _ => true
  | _ => false
  end.

Definition is_on_set (ev : event) : bool :=
  match ev with
  | on_set _ => true
  | _ => false
  end.

(** Whether the dict [e] has the key of [kv] with a value [==] to its value. *)
Definition entry_matches (e : list (string * pyval)) (kv : string * pyval) : bool :=
  match dict_get (fst kv) e with
  | Some y => py_eq (snd kv) y
  | None => false
  end.

(** The change [c] with the id [id] in place of its own. *)
Definition with_id (c : change) (id : pyobj) : change :=
  match c with
  | NullChange tn _ => NullChange tn id
  | SetChange cls tn value old_value _ => SetChange cls tn value old_value id
  | IntAddChange tn value _ => IntAddChange tn value id
  | FloatAddChange tn value _ => FloatAddChange tn value id
  | AppendChange tn item _ => AppendChange tn item id
  | RemoveChange tn item _ => RemoveChange tn item id
  | DictAddChange tn key value _ => DictAddChange tn key value id
  | DictRemoveChange tn key value _ => DictRemoveChange tn key value id
  | ChangeValueChange tn key value old_value _ =>
      ChangeValueChange tn key value old_value id
  | EmitChange tn args forward_info _ => EmitChange tn args forward_info id
  | ReversedEmitChange tn args forward_info _ =>
      ReversedEmitChange tn args forward_info id
  end.

Definition is_change_value (c : change) : bool :=
  match c with
  | ChangeValueChange _ _ _ _ _ => true
  | _ => false
  end.

(** The changes whose [inverse()] carries all they hold, so that the inverse
    of the inverse is the change again, its id apart. *)
Definition inverse_keeps_payload (c : change) : bool :=
  match c with
  | NullChange _ _ | SetChange _ _ _ _ _ | IntAddChange _ (VInt _) _
  | AppendChange _ _ _ | RemoveChange _ _ _ | ChangeValueChange _ _ _ _ _ => true
  | _ => false
  end.

(** The changes whose class [notify_listeners] of the topic class accepts. *)
Definition supported (cls : topic_class) (c : change) : bool :=
  match cls with
  | StringTopic =>
      match c with
      | SetChange StringSetChange _ _ _ _ => true
      | _ => false
      end
  | SetTopic => set_topic_change c
  end.

(** ** server/client_manager.py: messages *)

(** [make_message(message_type, **kwargs)]: a keyword named [message_type]
    collides with the positional parameter, which is a [TypeError] of the
    call. *)
Definition make_message (message_type : pyval) (kwargs : list (string * pyval))
  : res string :=
  if dict_contains "message_type" kwargs then Raise TypeError
  else Ok (json_dumps (VDict [("type", message_type); ("args", VDict kwargs)])).

(** [parse_message(message_json)] *)
Definition parse_message (message_json : string) : res (pyval * pyval) :=
  message <- json_loads message_json ;;
  message_type <- py_getitem message "type" ;;
  args <- py_getitem message "args" ;;
  Ok (message_type, args).

(** ** server/client_manager.py: subscriptions and the sending queue

    The manager keeps the ids of its clients, the set of subscribed client
    ids of each topic (a [defaultdict(set)]) and the queue of messages to
    send.  A set of ids is kept as the list of its members; the order in
    which a loop visits them is the parameter [order_ids]. *)

(** An entry of the sending queue, [(client, args, kwargs)]: the client by its
    id, the message type and the keyword arguments [changes] and
    [action_id]. *)
Record queued := {
  q_client : nat;
  q_message_type : string;
  q_changes : list wire;
  q_action_id : string
}.

Record ClientManager := {
  _clients : list nat;
  _subscriptions : list (string * list nat);
  _sending_queue : list queued
}.

Fixpoint members (topic : string) (subs : list (string * list nat))
  : option (list nat) :=
  match subs with
  | [] => None
  | (t, s) :: subs' => if String.eqb topic t then Some s else members topic subs'
  end.

(** [subscriptions[topic]] on the [defaultdict(set)]: a topic that has no
    entry gets an empty one. *)
Definition subscriptions_item (subs : list (string * list nat)) (topic : string)
  : list nat * list (string * list nat) :=
  match members topic subs with
  | Some s => (s, subs)
  | None => ([], (subs ++ [(topic, [])])%list)
  end.

(** The set of a topic replaced by the set after a method has written to
    it. *)
Fixpoint store_members (topic : string) (s : list nat)
  (subs : list (string * list nat)) : list (string * list nat) :=
  match subs with
  | [] => []
  | (t, s') :: subs' =>
      if String.eqb topic t then (t, s) :: subs'
      else (t, s') :: store_members topic s subs'
  end.

(** [s.add(x)] and [s.discard(x)] *)
Definition set_add (x : nat) (s : list nat) : list nat :=
  if existsb (Nat.eqb x) s then s else (s ++ [x])%list.

Definition set_discard (x : nat) (s : list nat) : list nat :=
  filter (fun y => negb (Nat.eqb x y)) s.

(** [client_id in subscriptions[topic]], without the entry a lookup would
    create. *)
Definition subscribed_in (subs : list (string * list nat)) (topic : string)
  (client_id : nat) : bool :=
  match members topic subs with
  | Some s => existsb (Nat.eqb client_id) s
  | None => false
  end.

Definition is_subscribed (cm : ClientManager) (topic : string) (client_id : nat)
  : bool :=
  subscribed_in (_subscriptions cm) topic client_id.

(** [messages_for_client], a [defaultdict(list)]: the wire forms collected
    for each client id, in the order the ids were first met. *)
Definition messages := list (nat * list wire).

Fixpoint messages_get (client_id : nat) (m : messages) : option (list wire) :=
  match m with
  | [] => None
  | (c, ws) :: m' => if Nat.eqb client_id c then Some ws else messages_get client_id m'
  end.

(** [messages_for_client[client_id].append(w)] *)
Fixpoint messages_append (client_id : nat) (w : wire) (m : messages) : messages :=
  match m with
  | [] => [(client_id, [w])]
  | (c, ws) :: m' =>
      if Nat.eqb client_id c then (c, (ws ++ [w])%list) :: m'
      else (c, ws) :: messages_append client_id w m'
  end.

(** [ClientManager.send(client, "update", changes=..., action_id=...)] *)
Definition send (cm : ClientManager) (client : nat) (message_type : string)
  (changes : list wire) (action_id : string) : ClientManager :=
  {| _clients := _clients cm;
     _subscriptions := _subscriptions cm;
     _sending_queue :=
       (_sending_queue cm ++
        [{| q_client := client; q_message_type := message_type;
            q_changes := changes; q_action_id := action_id |}])%list |}.

Definition with_subscriptions (cm : ClientManager)
  (subs : list (string * list nat)) : ClientManager :=
  {| _clients := _clients cm; _subscriptions := subs;
     _sending_queue := _sending_queue cm |}.

Section Manager.
(** The function the manager is built with, [GetTopicValue]. *)
Variable get_topic_value : string -> res pyval.
(** [SetChange(topic_name, value).serialize()], where [SetChange] is the one
    of [chatroom.topic_change], a module that is not under src/. *)
Variable snapshot : string -> pyval -> res wire.
Variable order_ids : list nat -> list nat.

(** [for client_id in self._subscriptions[change.topic_name]:
       messages_for_client[client_id].append(change.serialize())] *)
Fixpoint collect_for (c : change) (ids : list nat) (m : messages) : res messages :=
  match ids with
  | [] => Ok m
  | client_id :: ids' =>
      match serialize c with
      | Raise e => Raise e
      | Ok w => collect_for c ids' (messages_append client_id w m)
      end
  end.

Fixpoint collect (changes : list change) (subs : list (string * list nat))
  (m : messages) : res messages * list (string * list nat) :=
  match changes with
  | [] => (Ok m, subs)
  | c :: rest =>
      let (s, subs') := subscriptions_item subs (change_topic_name c) in
      match collect_for c (order_ids s) m with
      | Raise e => (Raise e, subs')
      | Ok m' => collect rest subs' m'
      end
  end.

(** [for client_id in messages_for_client:
       client = self._clients[client_id]; self.send(client, "update", ...)] *)
Fixpoint deliver (m : messages) (action_id : string) (cm : ClientManager)
  : res unit * ClientManager :=
  match m with
  | [] => (Ok tt, cm)
  | (client_id, ws) :: m' =>
      if existsb (Nat.eqb client_id) (_clients cm)
      then deliver m' action_id (send cm client_id "update" ws action_id)
      else (Raise (KeyError (OVal (VInt (Z.of_nat client_id)))), cm)
  end.

Definition send_update (cm : ClientManager) (changes : list change)
  (action_id : string) : res unit * ClientManager :=
  match collect changes (_subscriptions cm) [] with
  | (Raise e, subs) => (Raise e, with_subscriptions cm subs)
  | (Ok m, subs) => deliver m action_id (with_subscriptions cm subs)
  end.

Definition _cleanup_client (cm : ClientManager) (client : nat) : ClientManager :=
  with_subscriptions cm
    (map (fun ts => (fst ts, set_discard client (snd ts))) (_subscriptions cm)).

Definition _handle_subscribe (cm : ClientManager) (sender : nat)
  (topic_name : string) : res unit * ClientManager :=
  let (s, subs) := subscriptions_item (_subscriptions cm) topic_name in
  let cm1 := with_subscriptions cm (store_members topic_name (set_add sender s) subs) in
  match get_topic_value topic_name with
  | Raise e => (Raise e, cm1)
  | Ok value =>
      match snapshot topic_name value with
      | Raise e => (Raise e, cm1)
      | Ok w => (Ok tt, send cm1 sender "update" [w] EmptyString)
      end
  end.

Definition _handle_unsubscribe (cm : ClientManager) (sender : nat)
  (topic_name : string) : ClientManager :=
  let (s, subs) := subscriptions_item (_subscriptions cm) topic_name in
  with_subscriptions cm (store_members topic_name (set_discard sender s) subs).

(** What [send_update] owes a client: the wire forms of the changes on the
    topics it is subscribed to, in the order of the changes. *)
Definition wires_in (subs : list (string * list nat)) (changes : list change)
  (client_id : nat) : list wire :=
  flat_map (fun c =>
              if subscribed_in subs (change_topic_name c) client_id
              then match serialize c with
                   | Ok w => [w]
                   | Raise _ => []
                   end
              else [])
           changes.

Definition wires_for (cm : ClientManager) (changes : list change) (client_id : nat)
  : list wire :=
  wires_in (_subscriptions cm) changes client_id.

(** The wire forms collected so far for a client. *)
Definition messages_content (client_id : nat) (m : messages) : list wire :=
  match messages_get client_id m with
  | Some ws => ws
  | None => []
  end.

(** The queue entry [send_update] makes of an item of [messages_for_client]. *)
Definition update_message (action_id : string) (item : nat * list wire) : queued :=
  {| q_client := fst item; q_message_type := "update";
     q_changes := snd item; q_action_id := action_id |}.
End Manager.

(** No client has an empty list in [messages_for_client]. *)
Definition nonempty (m : messages) : Prop :=
  forall id, messages_get id m <> Some [].

(** The number a digit string denotes, read from the left into [acc]. *)
Fixpoint uint_val (acc : Z) (d : Decimal.uint) : Z :=
  match d with
  | Decimal.Nil => acc
  | Decimal.D0 d => uint_val (10 * acc + 0) d
  | Decimal.D1 d => uint_val (10 * acc + 1) d
  | Decimal.D2 d => uint_val (10 * acc + 2) d
  | Decimal.D3 d => uint_val (10 * acc + 3) d
  | Decimal.D4 d => uint_val (10 * acc + 4) d
  | Decimal.D5 d => uint_val (10 * acc + 5) d
  | Decimal.D6 d => uint_val (10 * acc + 6) d
  | Decimal.D7 d => uint_val (10 * acc + 7) d
  | Decimal.D8 d => uint_val (10 * acc + 8) d
  | Decimal.D9 d => uint_val (10 * acc + 9) d
  end.

(** What can follow a number in a JSON text: nothing, or a character that is
    neither a digit nor the start of a fraction or an exponent. *)
Definition ends_number (rest : string) : bool :=
  match rest with
  | EmptyString => true
  | String c _ =>
      match digit_val c with
      | Some _ => false
      | None => negb (starts_float_part rest)
      end
  end.

(** A text that starts with a character a JSON value can start with: no
    whitespace and no closing bracket. *)
Definition starts_value (s : string) : bool :=
  match s with
  | EmptyString => false
  | String c _ =>
      negb (is_ws c) && negb (N_of_ascii c =? 93)%N && negb (N_of_ascii c =? 125)%N
  end.

(** The text of one item of a dict. *)
Definition dumps_entry (kv : string * pyval) : string :=
  dumps_str (fst kv) ++ ": " ++ json_dumps (snd kv).

(** The number of values in a value, itself included. *)
Fixpoint json_size (v : pyval) : nat :=
  match v with
  | VList l =>
      S ((fix go (l : list pyval) : nat :=
            match l with
            | [] => O
            | x :: l' => (json_size x + go l')%nat
            end) l)
  | VDict d =>
      S ((fix go (d : list (string * pyval)) : nat :=
            match d with
            | [] => O
            | (_, x) :: d' => (json_size x + go d')%nat
            end) d)
  | _ => 1%nat
  end.

(** ** Values: induction and equality *)

Section pyval_induction.
Variable P : pyval -> Prop.
Hypothesis P_None : P VNone.
Hypothesis P_Bool : forall b, P (VBool b).
Hypothesis P_Int : forall z, P (VInt z).
Hypothesis P_Str : forall s, P (VStr s).
Hypothesis P_List : forall l, Forall P l -> P (VList l).
Hypothesis P_Dict : forall d, Forall (fun kv => P (snd kv)) d -> P (VDict d).

Fixpoint pyval_ind (v : pyval) : P v :=
  match v with
  | VNone => P_None
  | VBool b => P_Bool b
  | VInt z => P_Int z
  | VStr s => P_Str s
  | VList l =>
      P_List l
        (list_ind (Forall P) (Forall_nil P)
           (fun x l' IH => Forall_cons x (pyval_ind x) IH) l)
  | VDict d =>
      P_Dict d
        (list_ind (Forall (fun kv => P (snd kv))) (Forall_nil _)
           (fun kv d' IH => Forall_cons kv (pyval_ind (snd kv)) IH) d)
  end.
End pyval_induction.

Lemma py_eq_list_cons x l y m :
  py_eq (VList (x :: l)) (VList (y :: m)) = py_eq x y && py_eq (VList l) (VList m).
Proof. reflexivity. Qed.

Lemma py_eq_dict d e :
  py_eq (VDict d) (VDict e) =
  (List.length d =? List.length e)%nat && forallb (entry_matches e) d.
Proof.
  cbn [py_eq]. f_equal.
  induction d as [|[k x] d IH]; [reflexivity|].
  cbn [forallb]. rewrite <- IH. reflexivity.
Qed.

Lemma wf_list_cons x l : wf (VList (x :: l)) = wf x && wf (VList l).
Proof. reflexivity. Qed.

Lemma wf_dict d :
  wf (VDict d) = nodup_keys (dict_keys d) && forallb (fun kv => wf (snd kv)) d.
Proof.
  cbn [wf]. f_equal.
  induction d as [|[k x] d IH]; [reflexivity|].
  cbn [forallb snd]. rewrite <- IH. reflexivity.
Qed.

Lemma dict_get_not_key k d :
  existsb (String.eqb k) (dict_keys d) = false -> dict_get k d = None.
Proof.
  induction d as [|[k' x] d IH]; cbn; [reflexivity|].
  intros H. apply orb_false_iff in H as [Hk Hd].
  rewrite Hk. auto.
Qed.

Lemma dict_get_nodup k x d :
  nodup_keys (dict_keys d) = true -> In (k, x) d -> dict_get k d = Some x.
Proof.
  induction d as [|[k' x'] d IH]; cbn; [contradiction|].
  intros Hnd [Heq | Hin].
  - inversion Heq; subst. now rewrite String.eqb_refl.
  - apply andb_true_iff in Hnd as [Hk Hd].
    destruct (String.eqb k k') eqn:Ekk.
    + apply String.eqb_eq in Ekk; subst k'.
      apply negb_true_iff in Hk.
      apply dict_get_not_key in Hk.
      rewrite (IH Hd Hin) in Hk. discriminate.
    + auto.
Qed.

(** [==] is reflexive on well-formed values. *)
Lemma py_eq_refl v : wf v = true -> py_eq v v = true.
Proof.
  induction v as [| b | z | s | l IH | d IH] using pyval_ind; intros Hwf.
  - reflexivity.
  - destruct b; reflexivity.
  - apply Z.eqb_refl.
  - apply String.eqb_refl.
  - induction IH as [|x l Hx Hl IHl]; [reflexivity|].
    rewrite wf_list_cons in Hwf. apply andb_true_iff in Hwf as [Hwx Hwl].
    rewrite py_eq_list_cons, (Hx Hwx), (IHl Hwl). reflexivity.
  - rewrite py_eq_dict, Nat.eqb_refl. cbn [andb].
    rewrite wf_dict in Hwf. apply andb_true_iff in Hwf as [Hnd Hall].
    apply forallb_forall. intros [k x] Hin.
    unfold entry_matches; cbn [fst snd].
    rewrite (dict_get_nodup k x d Hnd Hin).
    rewrite Forall_forall in IH. apply (IH (k, x) Hin).
    rewrite forallb_forall in Hall. apply (Hall (k, x) Hin).
Qed.

(** ** Lists and dicts under the changes *)

Open Scope list_scope.

Lemma list_remove_appended item l :
  py_in item l = false -> py_eq item item = true ->
  list_remove item (l ++ [item]) = l.
Proof.
  unfold py_in. induction l as [|e l IH]; cbn; intros Hin Hrefl.
  - now rewrite Hrefl.
  - apply orb_false_iff in Hin as [He Hl]. rewrite He.
    f_equal. auto.
Qed.

Lemma py_in_app x l m : py_in x (l ++ m) = py_in x l || py_in x m.
Proof. unfold py_in. apply existsb_app. Qed.



Lemma dict_contains_keys k d :
  dict_contains k d = existsb (String.eqb k) (dict_keys d).
Proof.
  unfold dict_contains.
  induction d as [|[k' x] d IH]; cbn; [reflexivity|].
  destruct (String.eqb k k'); [reflexivity | exact IH].
Qed.

Lemma dict_set_absent k x d :
  dict_contains k d = false -> dict_set k x d = d ++ [(k, x)].
Proof.
  rewrite dict_contains_keys.
  induction d as [|[k' x'] d IH]; cbn; [reflexivity|].
  intros H. apply orb_false_iff in H as [Hk Hd].
  rewrite Hk. f_equal. auto.
Qed.









(** ** Round trips, kind by kind *)










(** Floating-point addition rounds: adding [0.2] to [0.1] and then [-0.2]
    gives [0.10000000000000003], not [0.1]. *)
Lemma float_add_round_trip_inexact :
  FloatArith.apply_inverse FloatArith.f0_2
    (FloatArith.apply FloatArith.f0_2 FloatArith.f0_1)
  = S754_finite false 7205759403792796 (-56)
  /\ FloatArith.apply_inverse FloatArith.f0_2
       (FloatArith.apply FloatArith.f0_2 FloatArith.f0_1)
     <> FloatArith.f0_1.
Proof.
  split; [vm_compute; reflexivity | vm_compute; discriminate].
Qed.

(** A whole-value Set to NaN does not round-trip: the inverse expects NaN as
    the prior value, and [nan == nan] is false, so its [assert] fails.  A Set
    away from NaN returns NaN again, which is not [==] to the NaN it
    replaced. *)
Lemma float_set_nan_round_trip_fails :
  FloatArith.set_round_trip FloatArith.nan None FloatArith.f0_1
  = Raise AssertionError
  /\ FloatArith.set_round_trip FloatArith.f0_1 None FloatArith.nan
     = Ok FloatArith.nan
  /\ FloatArith.float_eq FloatArith.nan FloatArith.nan = false.
Proof. repeat split. Qed.

(** On the other floats the whole-value Set does round-trip. *)
Lemma float_set_round_trip value expected v :
  FloatArith.float_eq value value = true ->
  FloatArith.float_eq v v = true ->
  (forall e, expected = Some e -> FloatArith.float_eq v e = true) ->
  FloatArith.set_round_trip value expected v = Ok v.
Proof.
  intros Hvalue Hv Hexp. unfold FloatArith.set_round_trip.
  assert (Happly : FloatArith.set_apply value expected v = Ok (value, v)).
  { unfold FloatArith.set_apply. destruct expected as [e|]; [|reflexivity].
    now rewrite (Hexp e eq_refl). }
  rewrite Happly. unfold FloatArith.set_apply. now rewrite Hvalue.
Qed.

(** ** C1: the round-trip law *)




(** ** Topics: what a rejected change leaves behind *)

Lemma set_value_back t v : set_value (set_value t v) (_value t) = t.
Proof. destruct t; reflexivity. Qed.

(** A change that [_validate_change_and_get_result] rejects leaves the topic
    as it was and reaches no listener. *)
Lemma apply_change_rejected L order t c notify rng e c' rng' :
  _validate_change_and_get_result t c rng = (Raise e, c', rng') ->
  result (apply_change L order t c notify rng) = Raise e /\
  topic_after (apply_change L order t c notify rng) = t /\
  calls (apply_change L order t c notify rng) = [].
Proof.
  intros H. unfold apply_change. rewrite H. cbn. auto.
Qed.


(** ** C3: a Set change with a stale expected value *)

(** C3, the failing input: [SetChange('t', 'new', old_value='expected')]
    applied to ['actual'].  The mismatch is raised by an [assert], so the
    failure is an [AssertionError] and not the [InvalidChangeError] the
    sibling changes raise and [Topic._validate_change_and_get_result]
    documents. *)
Lemma C3_not_invalid_change_counterexample :
  py_eq (VStr "expected") VNone = false /\
  py_eq (VStr "actual") (VStr "expected") = false /\
  is_invalid_change
    (ret (apply (SetChange StringSetChange "t" (VStr "new") (VStr "expected")
                   (OVal (VStr "id")))
                (VStr "actual") 0)) = false.
Proof. repeat split. Qed.



(** ** C4: a new value a validator rejects *)

(** When a validator rejects the new value, [apply_change] raises, the topic
    is left as it was and no listener is called; but the exception is never
    an [InvalidChangeError]: the class is called with three arguments. *)
Lemma validator_failure_raises L order t c notify rng new_value :
  ret (apply c (deepcopy (_value t)) rng) = Ok new_value ->
  existsb (fun v : validator =>
             negb (v (_value t) new_value
                     (self_after (apply c (deepcopy (_value t)) rng))))
          (_validators t) = true ->
  is_ok (result (apply_change L order t c notify rng)) = false /\
  is_invalid_change (result (apply_change L order t c notify rng)) = false /\
  topic_after (apply_change L order t c notify rng) = t /\
  calls (apply_change L order t c notify rng) = [].
Proof.
  intros Hret Hex.
  destruct (_validate_change_and_get_result t c rng) as [[r c'] rng'] eqn:Hv.
  assert (Hr : exists e, r = Raise e /\
                         match e with InvalidChangeError _ => False | _ => True end).
  { unfold _validate_change_and_get_result in Hv. rewrite Hret in Hv.
    destruct (find _ _) eqn:Hfind.
    - destruct (serialize _) eqn:Hser; inversion Hv; subst; eexists; split; eauto.
      + exact I.
      + destruct (self_after _); cbn in Hser; try discriminate.
        inversion Hser. exact I.
    - apply existsb_exists in Hex as (v & Hin & Hv').
      pose proof (find_none _ _ Hfind v Hin) as Hnone. cbn in Hnone.
      rewrite Hv' in Hnone. discriminate. }
  destruct Hr as (e & -> & He).
  destruct (apply_change_rejected L order t c notify rng _ _ _ Hv) as (H1 & H2 & H3).
  rewrite H1, H2, H3. repeat split. destruct e; auto; contradiction.
Qed.

(** C4: on a [StringTopic] holding [''], the change that sets the value to
    [5] is rejected by the type validator; the rejection raises [TypeError],
    not [InvalidChangeError].  The topic's stored value is left untouched. *)
Theorem C4_validator_rejection_raises_TypeError L order notify rng :
  result (apply_change L order (new_Topic StringTopic "t")
            (SetChange StringSetChange "t" (VInt 5) VNone (OVal (VStr "id")))
            notify rng) = Raise TypeError /\
  topic_after (apply_change L order (new_Topic StringTopic "t")
                 (SetChange StringSetChange "t" (VInt 5) VNone (OVal (VStr "id")))
                 notify rng) = new_Topic StringTopic "t".
Proof. split; reflexivity. Qed.

(** ** C5: serialization *)

Lemma deserialize_serialize c rng :
  deserializable c = true -> change_id c <> OVal VNone ->
  exists w, serialize c = Ok w /\
            deserialize w rng = (Ok (as_deserialized c), rng).
Proof.
  intros Hd Hid.
  assert (Hnew : forall id, id <> OVal VNone ->
            match id with OVal VNone => None | o => Some o end = Some id).
  { intros id H. destruct id as [[]| |]; try reflexivity. contradiction. }
  destruct c as [tn id | cls tn value ov id | tn value id | tn value id
                | tn item id | tn item id | tn key value id | tn key value id
                | tn key value ov id | tn args fi id | tn args fi id];
    try discriminate; cbn in Hid;
    try (destruct cls; try discriminate);
    (eexists; split; [reflexivity|]);
    unfold deserialize, construct, arg_id; cbn;
    rewrite (Hnew id Hid); reflexivity.
Qed.

(** An [EmitChange] does not come back either: its wire form has the key
    [forward_info], which [EmitChange.__init__] does not take. *)
Lemma deserialize_serialize_emit tn args forward_info id rng :
  exists w, serialize (EmitChange tn args forward_info id) = Ok w /\
            deserialize w rng = (Raise TypeError, rng).
Proof. eexists; split; reflexivity. Qed.

(** C5: for every dict ChangeValue change, [serialize] gives a wire form and
    [Change.deserialize] fails on it with [KeyError('change_value')]:
    [DictChangeTypes.types] does not list the class. *)
Theorem C5_change_value_not_deserializable tn key value old_value id rng :
  exists w,
    serialize (ChangeValueChange tn key value old_value id) = Ok w /\
    deserialize w rng = (Raise (KeyError (wstr "change_value")), rng).
Proof. eexists; split; reflexivity. Qed.

(** ** C6: the dict ChangeValue change *)


(** ** C7: what [apply] does to the object it is given *)

(** C7, the failing input: [DictChangeTypes.AddChange('t', 'k', 1)] applied
    to an empty dict writes the new key into the dict it was given. *)
Lemma C7_dict_add_mutates_counterexample :
  arg_after (apply (DictAddChange "t" "k" (VInt 1) (OVal (VStr "id")))
                   (VDict []) 0)
  <> VDict [].
Proof. cbn. discriminate. Qed.

(** C7, what the code does: the Set, Add, Append, set-as-list Remove, Emit
    and ReversedEmit changes leave the object passed as [old] as it was, as
    claimed.  The dict Add, Remove and ChangeValue changes do not: they
    update the dict they are given in place when they succeed, and return
    that same dict; when they raise, the dict is as it was.  A topic passes a
    copy of its value, so a rejected change leaves the topic as it was. *)
Theorem C7_apply_and_its_argument c old rng :
  arg_after (apply c old rng) =
    match ret (apply c old rng) with
    | Ok new_value => if is_dict_write c then new_value else old
    | Raise _ => old
    end
  /\ forall L order t notify e,
       fst (fst (_validate_change_and_get_result t c rng)) = Raise e ->
       topic_after (apply_change L order t c notify rng) = t.
Proof.
  split.
  - destruct c as [tn id | cls tn value ov id | tn value id | tn value id
                  | tn item id | tn item id | tn key value id | tn key value id
                  | tn key value ov id | tn args fi id | tn args fi id];
      unfold apply; cbn [is_dict_write].
    + reflexivity.
    + destruct (_ && _); reflexivity.
    + cbn. destruct (py_add old value); reflexivity.
    + cbn. destruct (py_add old value); reflexivity.
    + destruct (py_contains item old) as [[]|]; cbn; try reflexivity.
      destruct (py_add old _); reflexivity.
    + destruct (py_contains item old) as [[]|]; cbn; try reflexivity.
      destruct old; reflexivity.
    + destruct (py_contains (VStr key) old) as [[]|]; cbn; try reflexivity.
      destruct (py_setitem old key value); reflexivity.
    + destruct (py_contains (VStr key) old) as [[]|]; cbn; try reflexivity.
      destruct (py_pop old key) as [[popped old_dict]|]; reflexivity.
    + destruct (py_contains (VStr key) old) as [[]|]; cbn; try reflexivity.
      destruct (py_getitem old key) as [prior|]; cbn; try reflexivity.
      destruct (py_ne ov prior); destruct (py_setitem old key value); reflexivity.
    + reflexivity.
    + reflexivity.
  - intros L order t notify e H.
    destruct (_validate_change_and_get_result t c rng) as [[r c'] rng'] eqn:Hv.
    cbn in H. subst r.
    apply (apply_change_rejected L order t c notify rng _ _ _ Hv).
Qed.

(** A duplicate Append rejected through a topic. *)
Lemma C7_apply_and_its_argument_witness :
  fst (fst (_validate_change_and_get_result
              (set_value (new_Topic SetTopic "s") (VList [VInt 1]))
              (AppendChange "s" (VInt 1) (OVal (VStr "id"))) 0))
  = Raise (InvalidChangeError WouldCreateDuplicate) /\
  topic_after (apply_change (fun _ _ => None) (fun l => l)
                 (set_value (new_Topic SetTopic "s") (VList [VInt 1]))
                 (AppendChange "s" (VInt 1) (OVal (VStr "id"))) true 0)
  = set_value (new_Topic SetTopic "s") (VList [VInt 1]).
Proof.
  split; [reflexivity|].
  apply (proj2 (C7_apply_and_its_argument
                  (AppendChange "s" (VInt 1) (OVal (VStr "id")))
                  (VList [VInt 1]) 0)
               (fun _ _ => None) (fun l => l)
               (set_value (new_Topic SetTopic "s") (VList [VInt 1])) true
               (InvalidChangeError WouldCreateDuplicate)).
  reflexivity.
Defined.

(** ** C8: a listener that raises *)

(** C8: when a change has been validated and a listener raises during the
    notification, [apply_change] puts the topic's value back to what it was
    before the apply and raises the listener's exception. *)
Theorem C8_listener_failure_rolls_back L order t c rng new_value c' rng' done e :
  _validate_change_and_get_result t c rng = (Ok new_value, c', rng') ->
  notify_listeners L order (topic_cls t) c' (_value t) new_value = (done, Some e) ->
  result (apply_change L order t c true rng) = Raise e /\
  topic_after (apply_change L order t c true rng) = t /\
  _value (topic_after (apply_change L order t c true rng)) = _value t.
Proof.
  intros Hv Hn. unfold apply_change. rewrite Hv.
  assert (Hcls : topic_cls (set_value t new_value) = topic_cls t) by reflexivity.
  assert (Hval : _value (set_value t new_value) = new_value) by reflexivity.
  rewrite Hcls, Hval, Hn. cbn [result topic_after].
  rewrite set_value_back. auto.
Qed.

(** A listener of [on_append] that raises. *)
Lemma C8_listener_failure_rolls_back_witness :
  result (apply_change (fun _ ev => match ev with
                                    | on_append _ => Some (ListenerError 0)
                                    | _ => None
                                    end)
            (fun l => l) (set_value (new_Topic SetTopic "s") (VList [VInt 1]))
            (AppendChange "s" (VInt 2) (OVal (VStr "id"))) true 0)
  = Raise (ListenerError 0) /\
  _value (topic_after
            (apply_change (fun _ ev => match ev with
                                       | on_append _ => Some (ListenerError 0)
                                       | _ => None
                                       end)
               (fun l => l) (set_value (new_Topic SetTopic "s") (VList [VInt 1]))
               (AppendChange "s" (VInt 2) (OVal (VStr "id"))) true 0))
  = VList [VInt 1].
Proof.
  pose proof (C8_listener_failure_rolls_back
                (fun _ ev => match ev with
                             | on_append _ => Some (ListenerError 0)
                             | _ => None
                             end)
                (fun l => l) (set_value (new_Topic SetTopic "s") (VList [VInt 1]))
                (AppendChange "s" (VInt 2) (OVal (VStr "id"))) 0
                (VList [VInt 1; VInt 2])
                (AppendChange "s" (VInt 2) (OVal (VStr "id"))) 0
                [on_set (VList [VInt 1; VInt 2]); on_append (VInt 2)]
                (ListenerError 0) eq_refl eq_refl) as (H1 & _ & H3).
  split; [exact H1 | exact H3].
Defined.

(** ** C9 and C10: what a [SetTopic] tells its listeners *)

(** A loop over the items of a difference adds calls of its own action only. *)
Lemma for_each_extends L action items done :
  (forall v, is_on_set (action v) = false) ->
  exists extra,
    fst (for_each L action items done) = done ++ extra /\
    existsb is_on_set extra = false.
Proof.
  intros Hact. revert done.
  induction items as [|item rest IH]; intros done; cbn [for_each].
  - exists []. now rewrite app_nil_r.
  - destruct (json_loads item) as [v|e].
    + unfold call. destruct (L done (action v)) as [e|].
      * exists [action v]. cbn. now rewrite Hact.
      * destruct (IH (done ++ [action v])) as (extra & Hfst & Hex).
        exists (action v :: extra). rewrite Hfst, <- app_assoc. cbn.
        now rewrite Hact.
    + exists []. now rewrite app_nil_r.
Qed.

(** C9: with listeners that return, setting a set-as-list topic that holds
    [[1, 2, 3]] to [[2, 3, 4]] calls [on_set] with the new list, then
    [on_remove] once, with [1], and [on_append] once, with [4], and nothing
    else, whatever the order in which Python visits the members of a set. *)
Theorem C9_diff_notification L order name id rng :
  (forall l, Permutation l (order l)) ->
  (forall done ev, L done ev = None) ->
  let t := set_value (new_Topic SetTopic name) (VList [VInt 1; VInt 2; VInt 3]) in
  let c := SetChange SetSetChange name (VList [VInt 2; VInt 3; VInt 4]) VNone id in
  result (apply_change L order t c true rng)
    = Ok (VList [VInt 1; VInt 2; VInt 3], VList [VInt 2; VInt 3; VInt 4]) /\
  _value (topic_after (apply_change L order t c true rng))
    = VList [VInt 2; VInt 3; VInt 4] /\
  calls (apply_change L order t c true rng)
    = [on_set (VList [VInt 2; VInt 3; VInt 4]); on_remove (VInt 1);
       on_append (VInt 4)].
Proof.
  intros Hperm HL t c.
  assert (Hone : forall s : string, order [s] = [s]).
  { intros s. apply Permutation_length_1_inv, Hperm. }
  assert (Hn : notify_listeners L order SetTopic
                 (SetChange SetSetChange name (VList [VInt 2; VInt 3; VInt 4])
                            (VList [VInt 1; VInt 2; VInt 3]) id)
                 (VList [VInt 1; VInt 2; VInt 3])
                 (VList [VInt 2; VInt 3; VInt 4])
               = ([on_set (VList [VInt 2; VInt 3; VInt 4]); on_remove (VInt 1);
                   on_append (VInt 4)], None)).
  { unfold notify_listeners, call. rewrite HL. cbn [py_iter].
    replace (set_minus (set_of (map json_dumps [VInt 1; VInt 2; VInt 3]))
                       (set_of (map json_dumps [VInt 2; VInt 3; VInt 4])))
      with ["1"%string] by (vm_compute; reflexivity).
    replace (set_minus (set_of (map json_dumps [VInt 2; VInt 3; VInt 4]))
                       (set_of (map json_dumps [VInt 1; VInt 2; VInt 3])))
      with ["4"%string] by (vm_compute; reflexivity).
    rewrite !Hone. cbn [for_each].
    replace (json_loads "1") with (Ok (VInt 1)) by (vm_compute; reflexivity).
    replace (json_loads "4") with (Ok (VInt 4)) by (vm_compute; reflexivity).
    unfold call. rewrite !HL. reflexivity. }
  unfold apply_change.
  replace (_validate_change_and_get_result t c rng)
    with (Ok (VList [VInt 2; VInt 3; VInt 4]),
          SetChange SetSetChange name (VList [VInt 2; VInt 3; VInt 4])
                    (VList [VInt 1; VInt 2; VInt 3]) id, rng)
    by reflexivity.
  cbn [topic_cls set_value _value t new_Topic add_validator].
  rewrite Hn. repeat split.
Qed.

(** Listeners that return, and the members visited in the order kept. *)
Lemma C9_diff_notification_witness :
  (forall l : list string, Permutation l ((fun l => l) l)) /\
  (forall (done : list event) (ev : event),
      (fun _ _ => @None exn) done ev = None) /\
  calls (apply_change (fun _ _ => None) (fun l => l)
           (set_value (new_Topic SetTopic "s") (VList [VInt 1; VInt 2; VInt 3]))
           (SetChange SetSetChange "s" (VList [VInt 2; VInt 3; VInt 4]) VNone
                      (OVal (VStr "id")))
           true 0)
  = [on_set (VList [VInt 2; VInt 3; VInt 4]); on_remove (VInt 1);
     on_append (VInt 4)].
Proof.
  split; [intros l; apply Permutation_refl|].
  split; [reflexivity|].
  apply (C9_diff_notification (fun _ _ => None) (fun l => l) "s"
           (OVal (VStr "id")) 0
           (fun l => Permutation_refl l) (fun _ _ => eq_refl)).
Defined.

(** [apply] keeps the class of a change a [SetTopic] supports, and the item
    of an Append or a Remove. *)
Lemma apply_keeps_set_topic_change c v rng :
  set_topic_change c = true ->
  is_ok (ret (apply c v rng)) = true ->
  match c with
  | AppendChange _ _ _ | RemoveChange _ _ _ => self_after (apply c v rng) = c
  | _ => exists tn value old_value id,
           self_after (apply c v rng) = SetChange SetSetChange tn value old_value id
  end.
Proof.
  destruct c as [tn id | cls tn value ov id | tn value id | tn value id
                | tn item id | tn item id | tn key value id | tn key value id
                | tn key value ov id | tn args fi id | tn args fi id];
    try discriminate; unfold apply.
  - destruct cls; try discriminate. intros _.
    destruct (_ && _); cbn; [discriminate|]. intros _. eauto.
  - intros _. destruct (py_contains item v) as [[]|]; cbn; try discriminate.
    destruct (py_add v _); reflexivity.
  - intros _. destruct (py_contains item v) as [[]|]; cbn; try discriminate.
    destruct v; reflexivity.
Qed.

Lemma validate_ok_change t c rng new_value c' rng' :
  _validate_change_and_get_result t c rng = (Ok new_value, c', rng') ->
  ret (apply c (deepcopy (_value t)) rng) = Ok new_value /\
  c' = self_after (apply c (deepcopy (_value t)) rng).
Proof.
  unfold _validate_change_and_get_result.
  destruct (ret (apply c (deepcopy (_value t)) rng)) as [v|e]; [|discriminate].
  destruct (find _ _).
  - destruct (serialize _); discriminate.
  - intros H; inversion H; subst. auto.
Qed.

(** ** C2: undo and redo of a string insert *)

(** C2: on a machine with a string topic initialised to ["a"], the call
    [insert(1, "bcde")] inside one recording scope makes the value ["abcde"]
    and hands exactly one Transition to the transition callback; undoing that
    Transition restores ["a"] and redoing it restores ["abcde"], without any
    further Transition. *)
Theorem C2_string_undo_redo :
  exists m1 t m2 m3,
    StateMachineSpec.record
      (StateMachineSpec.add_topic StateMachineSpec.new_StateMachine "topic" "a")
      [StateMachineSpec.insert "topic" 1 "bcde"] = (Ok tt, m1) /\
    StateMachineSpec.get m1 "topic" = Some "abcde"%string /\
    StateMachineSpec.forwarded m1 = [t] /\
    StateMachineSpec.undo m1 t = Ok m2 /\
    StateMachineSpec.get m2 "topic" = Some "a"%string /\
    StateMachineSpec.forwarded m2 = [t] /\
    StateMachineSpec.redo m2 t = Ok m3 /\
    StateMachineSpec.get m3 "topic" = Some "abcde"%string /\
    StateMachineSpec.forwarded m3 = [t].
Proof.
  do 4 eexists. repeat split.
Qed.

(** * Further properties of change.py *)

(** ** [apply] *)

Lemma apply_raise_unchanged c old rng e :
  ret (apply c old rng) = Raise e ->
  self_after (apply c old rng) = c /\
  arg_after (apply c old rng) = old /\
  rng_after (apply c old rng) = rng.
Proof.
  destruct c as [tn id | cls tn value ov id | tn value id | tn value id
                | tn item id | tn item id | tn key value id | tn key value id
                | tn key value ov id | tn args fi id | tn args fi id];
    unfold apply.
  - discriminate.
  - destruct (_ && _); cbn; [auto | discriminate].
  - cbn. auto.
  - cbn. auto.
  - destruct (py_contains item old) as [[]|]; cbn; auto.
  - destruct (py_contains item old) as [[]|]; cbn; auto.
    destruct old; cbn; auto.
  - destruct (py_contains (VStr key) old) as [[]|]; cbn; auto.
    destruct (py_setitem old key value); cbn; [discriminate | auto].
  - destruct (py_contains (VStr key) old) as [[]|]; cbn; auto.
    destruct (py_pop old key) as [[popped old_dict]|]; cbn; [discriminate | auto].
  - destruct (py_contains (VStr key) old) as [[]|]; cbn; auto.
    destruct old as [| | | | |d]; cbn; auto.
    destruct (dict_get key d) as [prior|]; cbn; auto.
    destruct (py_ne ov prior); cbn; discriminate.
  - discriminate.
  - discriminate.
Qed.

(** An [apply] that raises has written nothing: the change is as it was, the
    object passed is as it was, and the random source has not been drawn
    from. *)
Theorem apply_raise_no_effect c old rng e :
  ret (apply c old rng) = Raise e ->
  self_after (apply c old rng) = c /\
  arg_after (apply c old rng) = old /\
  rng_after (apply c old rng) = rng.
Proof. apply apply_raise_unchanged. Qed.

(** A dict Remove of a key the dict lacks. *)
Lemma apply_raise_no_effect_witness :
  ret (apply (DictRemoveChange "t" "k" VNone (OVal (VStr "id")))
             (VDict [("a", VInt 1)]) 0)
  = Raise (InvalidChangeError KeyNotInDict) /\
  self_after (apply (DictRemoveChange "t" "k" VNone (OVal (VStr "id")))
                    (VDict [("a", VInt 1)]) 0)
  = DictRemoveChange "t" "k" VNone (OVal (VStr "id")).
Proof.
  split; [reflexivity|].
  apply (apply_raise_no_effect (DictRemoveChange "t" "k" VNone (OVal (VStr "id")))
           (VDict [("a", VInt 1)]) 0 (InvalidChangeError KeyNotInDict)).
  reflexivity.
Defined.

(** [apply] never renames the topic of a change, and only the dict
    ChangeValue draws from the random source or takes another id. *)
Theorem apply_keeps_name_and_id c old rng :
  change_topic_name (self_after (apply c old rng)) = change_topic_name c /\
  (is_change_value c = false ->
   change_id (self_after (apply c old rng)) = change_id c /\
   rng_after (apply c old rng) = rng).
Proof.
  destruct c as [tn id | cls tn value ov id | tn value id | tn value id
                | tn item id | tn item id | tn key value id | tn key value id
                | tn key value ov id | tn args fi id | tn args fi id];
    unfold apply; cbn [is_change_value].
  - cbn; auto.
  - destruct (_ && _); cbn; auto.
  - cbn; auto.
  - cbn; auto.
  - destruct (py_contains item old) as [[]|]; cbn; auto.
  - destruct (py_contains item old) as [[]|]; cbn; auto.
    destruct old; cbn; auto.
  - destruct (py_contains (VStr key) old) as [[]|]; cbn; auto.
    destruct (py_setitem old key value); cbn; auto.
  - destruct (py_contains (VStr key) old) as [[]|]; cbn; auto.
    destruct (py_pop old key) as [[popped old_dict]|]; cbn; auto.
  - split; [|discriminate].
    destruct (py_contains (VStr key) old) as [[]|]; cbn; auto.
    destruct (py_getitem old key) as [prior|]; cbn; auto.
    destruct (py_ne ov prior); destruct (py_setitem old key value); reflexivity.
  - cbn; auto.
  - cbn; auto.
Qed.

(** An Append. *)
Lemma apply_keeps_name_and_id_witness :
  is_change_value (AppendChange "t" (VInt 1) (OVal (VStr "id"))) = false /\
  change_id (self_after (apply (AppendChange "t" (VInt 1) (OVal (VStr "id")))
                               (VList []) 3))
  = OVal (VStr "id") /\
  rng_after (apply (AppendChange "t" (VInt 1) (OVal (VStr "id"))) (VList []) 3)
  = 3%nat.
Proof.
  split; [reflexivity|].
  apply (proj2 (apply_keeps_name_and_id
                  (AppendChange "t" (VInt 1) (OVal (VStr "id"))) (VList []) 3)).
  reflexivity.
Defined.

(** ** [inverse] *)

(** For a Set, an int Add, an Append, a set-as-list Remove, a dict
    ChangeValue and a NullChange, the inverse of the inverse is the change
    again with another id: [inverse] loses nothing of them. *)
Theorem inverse_inverse c rng :
  inverse_keeps_payload c = true ->
  exists c1 rng1 c2 rng2,
    inverse c rng = (Ok c1, rng1) /\
    inverse c1 rng1 = (Ok c2, rng2) /\
    with_id c2 (change_id c) = c.
Proof.
  destruct c as [tn id | cls tn value ov id | tn value id | tn value id
                | tn item id | tn item id | tn key value id | tn key value id
                | tn key value ov id | tn args fi id | tn args fi id];
    try discriminate; intros H.
  - do 4 eexists. repeat split.
  - do 4 eexists. repeat split.
  - destruct value; try discriminate.
    do 4 eexists. cbn. repeat split. cbn. now rewrite Z.opp_involutive.
  - do 4 eexists. repeat split.
  - do 4 eexists. repeat split.
  - do 4 eexists. repeat split.
Qed.

(** An int Add. *)
Lemma inverse_inverse_witness :
  inverse_keeps_payload (IntAddChange "n" (VInt 5) (OVal (VStr "id"))) = true /\
  exists c1 rng1 c2 rng2,
    inverse (IntAddChange "n" (VInt 5) (OVal (VStr "id"))) 0 = (Ok c1, rng1) /\
    inverse c1 rng1 = (Ok c2, rng2) /\
    with_id c2 (OVal (VStr "id")) = IntAddChange "n" (VInt 5) (OVal (VStr "id")).
Proof.
  split; [reflexivity|].
  apply (inverse_inverse (IntAddChange "n" (VInt 5) (OVal (VStr "id"))) 0).
  reflexivity.
Defined.

(** The inverse of an EmitChange is a ReversedEmitChange that carries the
    [forward_info]; the inverse of that is an EmitChange with the same
    [args] whose [forward_info] is empty again. *)
Theorem inverse_emit_drops_forward_info tn args forward_info id rng :
  exists c1 c2,
    inverse (EmitChange tn args forward_info id) rng = (Ok c1, S rng) /\
    c1 = ReversedEmitChange tn args forward_info (OUuidStr rng) /\
    inverse c1 (S rng) = (Ok c2, S (S rng)) /\
    c2 = EmitChange tn args (VDict []) (OUuidStr (S rng)).
Proof. do 2 eexists. repeat split. Qed.

(** ** [serialize] and [deserialize] *)

Lemma wire_get_remove_entry k k' d :
  wire_get k (remove_entry d k') =
  if String.eqb k' k then None else wire_get k d.
Proof.
  unfold remove_entry.
  induction d as [|[k0 o] d IH]; cbn.
  - now destruct (String.eqb k' k).
  - destruct (String.eqb k' k0) eqn:E0; cbn.
    + apply String.eqb_eq in E0; subst k0. rewrite IH.
      destruct (String.eqb k' k) eqn:E; [reflexivity|].
      rewrite String.eqb_sym, E. reflexivity.
    + destruct (String.eqb k k0) eqn:E1; [|exact IH].
      apply String.eqb_eq in E1; subst k0.
      now rewrite E0.
Qed.

(** [remove_entry] gives a dict without the key and with every other entry
    of the dict it was given. *)
Theorem remove_entry_lookup d key :
  wire_get key (remove_entry d key) = None /\
  forall k, k <> key -> wire_get k (remove_entry d key) = wire_get k d.
Proof.
  split.
  - rewrite wire_get_remove_entry. now rewrite String.eqb_refl.
  - intros k Hk. rewrite wire_get_remove_entry.
    destruct (String.eqb key k) eqn:E; [|reflexivity].
    apply String.eqb_eq in E. congruence.
Qed.

(** A change read back from its wire form has the id it had and behaves as
    it did: on every value [apply] returns or raises the same, leaves the
    object passed the same and, when it returns, leaves the same change, so
    that the inverses agree.  This is so for every class the tables list
    whose wire form its [__init__] accepts. *)
Theorem deserialize_serialize_same_behaviour c rng :
  deserializable c = true -> change_id c <> OVal VNone ->
  exists w c',
    serialize c = Ok w /\
    deserialize w rng = (Ok c', rng) /\
    change_id c' = change_id c /\
    change_topic_name c' = change_topic_name c /\
    forall old r,
      ret (apply c' old r) = ret (apply c old r) /\
      arg_after (apply c' old r) = arg_after (apply c old r) /\
      (is_ok (ret (apply c old r)) = true ->
       self_after (apply c' old r) = self_after (apply c old r)).
Proof.
  intros Hd Hid.
  destruct (deserialize_serialize c rng Hd Hid) as (w & Hs & Hde).
  exists w, (as_deserialized c). repeat split; auto;
    destruct c as [tn id | cls tn value ov id | tn value id | tn value id
                  | tn item id | tn item id | tn key value id | tn key value id
                  | tn key value ov id | tn args fi id | tn args fi id];
    try reflexivity;
    unfold as_deserialized, apply;
    destruct (py_contains (VStr key) old) as [[]|]; cbn; try reflexivity;
    try discriminate;
    destruct (py_pop old key) as [[popped old_dict]|]; cbn;
    try reflexivity; discriminate.
Qed.

(** A dict Remove that has captured a value. *)
Lemma deserialize_serialize_same_behaviour_witness :
  deserializable (DictRemoveChange "d" "k" (VInt 9) (OVal (VStr "id"))) = true /\
  change_id (DictRemoveChange "d" "k" (VInt 9) (OVal (VStr "id"))) <> OVal VNone /\
  exists w c',
    serialize (DictRemoveChange "d" "k" (VInt 9) (OVal (VStr "id"))) = Ok w /\
    deserialize w 0 = (Ok c', 0%nat) /\
    change_id c' = OVal (VStr "id").
Proof.
  split; [reflexivity|]. split; [discriminate|].
  destruct (deserialize_serialize_same_behaviour
              (DictRemoveChange "d" "k" (VInt 9) (OVal (VStr "id"))) 0
              eq_refl ltac:(discriminate)) as (w & c' & H1 & H2 & H3 & _).
  exists w, c'. auto.
Defined.

(** [SetChange] itself, the class outside the [...ChangeTypes] namespaces,
    writes [topic_type] ['unknown'], which no table lists: its wire form is
    never read back. *)
Theorem base_set_change_not_deserializable tn value old_value id rng :
  exists w,
    serialize (SetChange BaseSetChange tn value old_value id) = Ok w /\
    deserialize w rng = (Raise (KeyError (wstr "unknown")), rng).
Proof. eexists; split; reflexivity. Qed.

Lemma construct_result cl kwargs rng c rng' :
  construct cl kwargs rng = (Ok c, rng') ->
  match wire_get "id" kwargs with
  | Some (OVal VNone) | None => change_id c = OUuidStr rng /\ rng' = S rng
  | Some o => change_id c = o /\ rng' = rng
  end /\
  wire_get "topic_name" kwargs = Some (wstr (change_topic_name c)).
Proof.
  unfold construct. destruct (negb (binds cl kwargs)); [discriminate|].
  destruct (arg_string kwargs "topic_name") as [tn|] eqn:Htn; [|discriminate].
  assert (Hname : wire_get "topic_name" kwargs = Some (wstr tn)).
  { unfold arg_string in Htn.
    destruct (wire_get "topic_name" kwargs) as [[[]| |]|]; try discriminate.
    now inversion Htn. }
  rewrite Hname. cbn [bind].
  destruct cl;
    repeat match goal with
           | |- context [arg_value ?a ?b ?d] => destruct (arg_value a b d)
           | |- context [arg_string ?a ?b] => destruct (arg_string a b)
           end;
    cbn [bind fst snd]; try discriminate;
    unfold arg_id;
    destruct (wire_get "id" kwargs) as [[[]| |]|]; cbn;
    intros H; inversion H; subst; cbn; auto.
Qed.

(** A change that [deserialize] returns has the topic name of the wire form
    and its id: the one of the wire form, or, when the wire form has none or
    [None], the [str] of a new draw of [uuid.uuid4()].  The id of a change
    read from the wire is never [None]. *)
Theorem deserialize_id_and_name w rng c rng' :
  deserialize w rng = (Ok c, rng') ->
  match wire_get "id" w with
  | Some (OVal VNone) | None => change_id c = OUuidStr rng /\ rng' = S rng
  | Some o => change_id c = o /\ rng' = rng
  end /\
  wire_get "topic_name" w = Some (wstr (change_topic_name c)) /\
  change_id c <> OVal VNone.
Proof.
  unfold deserialize.
  destruct (wire_get "type" w) as [change_type|]; [|discriminate].
  destruct (wire_get "topic_type" w) as [topic_type|]; [|discriminate].
  destruct (subscript type_name_to_change_types topic_type) as [types|];
    [|discriminate].
  destruct (subscript types change_type) as [cl|]; [|discriminate].
  intros H. apply construct_result in H as [Hid Hname].
  rewrite !wire_get_remove_entry in Hid, Hname. cbn in Hid, Hname.
  repeat split; auto.
  destruct (wire_get "id" w) as [[[]| |]|]; destruct Hid as [-> _]; discriminate.
Qed.

(** A wire form without an id. *)
Lemma deserialize_id_and_name_witness :
  deserialize [("topic_name", wstr "s"); ("topic_type", wstr "set");
               ("type", wstr "append"); ("item", OVal (VInt 1))] 4
  = (Ok (AppendChange "s" (VInt 1) (OUuidStr 4)), 5%nat) /\
  change_id (AppendChange "s" (VInt 1) (OUuidStr 4)) <> OVal VNone.
Proof.
  split; [reflexivity|].
  apply (deserialize_id_and_name
           [("topic_name", wstr "s"); ("topic_type", wstr "set");
            ("type", wstr "append"); ("item", OVal (VInt 1))] 4
           (AppendChange "s" (VInt 1) (OUuidStr 4)) 5 eq_refl).
Defined.



(** * Further properties of topic.py *)






(** [apply_change] keeps what the validators guard: a topic that has the
    validator [type_validator(ts)] and whose value is of one of the types
    [ts] is, after any [apply_change], whatever its outcome, a topic with the
    same validators whose value is of one of these types. *)
Theorem apply_change_keeps_type L order t ts c notify rng :
  In (type_validator ts) (_validators t) ->
  existsb (isinstance (_value t)) ts = true ->
  _validators (topic_after (apply_change L order t c notify rng)) = _validators t /\
  _name (topic_after (apply_change L order t c notify rng)) = _name t /\
  topic_cls (topic_after (apply_change L order t c notify rng)) = topic_cls t /\
  existsb (isinstance (_value (topic_after (apply_change L order t c notify rng))))
          ts = true.
Proof.
  intros Hin Hty. unfold apply_change.
  destruct (_validate_change_and_get_result t c rng) as [[[new_value|e] c'] rng'] eqn:Hv.
  2:{ cbn. auto. }
  assert (Hnew : existsb (isinstance new_value) ts = true).
  { unfold _validate_change_and_get_result in Hv.
    destruct (ret (apply c (deepcopy (_value t)) rng)) as [v|]; [|discriminate].
    destruct (find _ _) eqn:Hfind.
    - destruct (serialize _); discriminate.
    - inversion Hv; subst.
      pose proof (find_none _ _ Hfind _ Hin) as Hn. cbn in Hn.
      apply negb_false_iff in Hn. exact Hn. }
  destruct notify.
  - destruct (notify_listeners _ _ _ _ _ _) as [done [e|]]; cbn; auto.
  - cbn. auto.
Qed.

(** A [StringTopic] asked to set its value to a list. *)
Lemma apply_change_keeps_type_witness :
  In (type_validator [py_str]) (_validators (new_Topic StringTopic "t")) /\
  existsb (isinstance (_value (new_Topic StringTopic "t"))) [py_str] = true /\
  existsb (isinstance
             (_value (topic_after
                        (apply_change (fun _ _ => None) (fun l => l)
                           (new_Topic StringTopic "t")
                           (SetChange StringSetChange "t" (VList []) VNone
                                      (OVal (VStr "id")))
                           true 0))))
          [py_str] = true.
Proof.
  split; [left; reflexivity|]. split; [reflexivity|].
  apply (apply_change_keeps_type (fun _ _ => None) (fun l => l)
           (new_Topic StringTopic "t") [py_str]
           (SetChange StringSetChange "t" (VList []) VNone (OVal (VStr "id")))
           true 0 (or_introl eq_refl) eq_refl).
Defined.

Lemma apply_keeps_supported cls c v rng :
  supported cls (self_after (apply c v rng)) = supported cls c.
Proof.
  destruct c as [tn id | scls tn value ov id | tn value id | tn value id
                | tn item id | tn item id | tn key value id | tn key value id
                | tn key value ov id | tn args fi id | tn args fi id];
    unfold apply.
  - reflexivity.
  - destruct (_ && _); reflexivity.
  - reflexivity.
  - reflexivity.
  - destruct (py_contains item v) as [[]|]; reflexivity.
  - destruct (py_contains item v) as [[]|]; try reflexivity.
    destruct v; reflexivity.
  - destruct (py_contains (VStr key) v) as [[]|]; try reflexivity.
    destruct (py_setitem v key value); reflexivity.
  - destruct (py_contains (VStr key) v) as [[]|]; try reflexivity.
    destruct (py_pop v key) as [[popped old_dict]|]; destruct cls; reflexivity.
  - destruct (py_contains (VStr key) v) as [[]|]; try reflexivity.
    destruct (py_getitem v key) as [prior|]; try reflexivity.
    destruct (py_ne ov prior); destruct (py_setitem v key value);
      destruct cls; reflexivity.
  - reflexivity.
  - reflexivity.
Qed.

(** A change of a class the topic's [notify_listeners] does not know: when
    it validates and listeners are to be notified, [apply_change] raises
    ['Unsupported change type'] without calling a listener and the topic is as
    it was; with [notify_listeners=False] the same change goes through and the
    topic takes the new value. *)
Theorem unsupported_change L order t c rng new_value c' rng' :
  _validate_change_and_get_result t c rng = (Ok new_value, c', rng') ->
  supported (topic_cls t) c = false ->
  result (apply_change L order t c true rng) = Raise (unsupported (topic_cls t)) /\
  topic_after (apply_change L order t c true rng) = t /\
  calls (apply_change L order t c true rng) = [] /\
  result (apply_change L order t c false rng) = Ok (_value t, new_value) /\
  _value (topic_after (apply_change L order t c false rng)) = new_value.
Proof.
  intros Hv Hsup.
  destruct (validate_ok_change _ _ _ _ _ _ Hv) as [_ Hc'].
  assert (Hsup' : supported (topic_cls t) c' = false).
  { rewrite Hc', apply_keeps_supported. exact Hsup. }
  assert (Hn : notify_listeners L order (topic_cls t) c' (_value t) new_value
               = ([], Some (unsupported (topic_cls t)))).
  { unfold notify_listeners. destruct (topic_cls t); cbn in Hsup'.
    - destruct c' as [| [] | | | | | | | | |]; try reflexivity; discriminate.
    - destruct c' as [| [] | | | | | | | | |]; try reflexivity; discriminate. }
  unfold apply_change. rewrite Hv.
  cbn [topic_cls set_value _value]. rewrite Hn. cbn.
  rewrite set_value_back. auto.
Qed.

(** A [GenericChangeTypes.SetChange] on a [StringTopic]. *)
Lemma unsupported_change_witness :
  supported StringTopic
    (SetChange GenericSetChange "t" (VStr "x") VNone (OVal (VStr "id"))) = false /\
  result (apply_change (fun _ _ => None) (fun l => l) (new_Topic StringTopic "t")
            (SetChange GenericSetChange "t" (VStr "x") VNone (OVal (VStr "id")))
            true 0)
  = Raise (unsupported StringTopic) /\
  _value (topic_after
            (apply_change (fun _ _ => None) (fun l => l) (new_Topic StringTopic "t")
               (SetChange GenericSetChange "t" (VStr "x") VNone (OVal (VStr "id")))
               false 0))
  = VStr "x".
Proof.
  split; [reflexivity|].
  destruct (unsupported_change (fun _ _ => None) (fun l => l)
              (new_Topic StringTopic "t")
              (SetChange GenericSetChange "t" (VStr "x") VNone (OVal (VStr "id")))
              0 (VStr "x")
              (SetChange GenericSetChange "t" (VStr "x") (VStr EmptyString)
                         (OVal (VStr "id")))
              0 eq_refl eq_refl) as (H1 & _ & _ & _ & H5).
  split; [exact H1 | exact H5].
Defined.

(** ** Undoing through a topic *)

Lemma validate_set_topic (name : string) v c rng new_value :
  ret (apply c v rng) = Ok (VList new_value) ->
  _validate_change_and_get_result (set_value (new_Topic SetTopic name) v) c rng
  = (Ok (VList new_value), self_after (apply c v rng), rng_after (apply c v rng)).
Proof.
  intros H. unfold _validate_change_and_get_result.
  cbn [_value set_value new_Topic add_validator _validators app]. unfold deepcopy.
  rewrite H. reflexivity.
Qed.

(** On a [SetTopic] whose listeners return, appending an item the list lacks
    and then applying the inverse of the applied change brings the topic back
    to what it was; the listeners hear [on_set] and [on_append] for the first
    and [on_set] and [on_remove] for the second. *)
Theorem set_topic_append_then_inverse L order name l tn item id rng :
  (forall done ev, L done ev = None) ->
  wf item = true -> py_in item l = false ->
  let t := set_value (new_Topic SetTopic name) (VList l) in
  let a1 := apply_change L order t (AppendChange tn item id) true rng in
  result a1 = Ok (VList l, VList (l ++ [item])) /\
  calls a1 = [on_set (VList (l ++ [item])); on_append item] /\
  exists c1 rng1,
    inverse (change_after a1) (rng_left a1) = (Ok c1, rng1) /\
    result (apply_change L order (topic_after a1) c1 true rng1)
      = Ok (VList (l ++ [item]), VList l) /\
    topic_after (apply_change L order (topic_after a1) c1 true rng1) = t /\
    calls (apply_change L order (topic_after a1) c1 true rng1)
      = [on_set (VList l); on_remove item].
Proof.
  intros HL Hwf Hin t a1.
  pose proof (py_eq_refl item Hwf) as Hrefl.
  assert (Hap : apply (AppendChange tn item id) (VList l) rng
                = {| ret := Ok (VList (l ++ [item]));
                     self_after := AppendChange tn item id;
                     arg_after := VList l; rng_after := rng |}).
  { unfold apply. cbn [py_contains]. fold (py_in item l). now rewrite Hin. }
  assert (Ha1 : a1 = {| result := Ok (VList l, VList (l ++ [item]));
                        topic_after := set_value (new_Topic SetTopic name)
                                                 (VList (l ++ [item]));
                        change_after := AppendChange tn item id;
                        rng_left := rng;
                        calls := [on_set (VList (l ++ [item])); on_append item] |}).
  { unfold a1, apply_change, t.
    rewrite (validate_set_topic name (VList l) _ rng (l ++ [item]));
      [|now rewrite Hap].
    rewrite Hap. cbn [self_after rng_after topic_cls set_value _value new_Topic
                      add_validator notify_listeners].
    unfold call. rewrite !HL. reflexivity. }
  rewrite Ha1. cbn [result calls change_after rng_left topic_after].
  split; [reflexivity|]. split; [reflexivity|].
  exists (RemoveChange tn item (OUuidStr rng)), (S rng).
  split; [reflexivity|].
  assert (Hin2 : py_in item (l ++ [item]) = true).
  { rewrite py_in_app. cbn. rewrite Hrefl. apply orb_true_r. }
  assert (Hrm : apply (RemoveChange tn item (OUuidStr rng)) (VList (l ++ [item])) (S rng)
                = {| ret := Ok (VList l);
                     self_after := RemoveChange tn item (OUuidStr rng);
                     arg_after := VList (l ++ [item]); rng_after := S rng |}).
  { unfold apply. cbn [py_contains]. fold (py_in item (l ++ [item])).
    rewrite Hin2. now rewrite (list_remove_appended item l Hin Hrefl). }
  unfold apply_change.
  rewrite (validate_set_topic name (VList (l ++ [item])) _ (S rng) l);
    [|now rewrite Hrm].
  rewrite Hrm. cbn [self_after rng_after topic_cls set_value _value new_Topic
                    add_validator notify_listeners].
  unfold call. rewrite !HL. cbn. repeat split.
Qed.

Lemma set_topic_append_then_inverse_witness :
  (forall (done : list event) (ev : event), (fun _ _ => @None exn) done ev = None) /\
  wf (VStr "b") = true /\ py_in (VStr "b") [VStr "a"] = false /\
  result (apply_change (fun _ _ => None) (fun l => l)
            (set_value (new_Topic SetTopic "s") (VList [VStr "a"]))
            (AppendChange "s" (VStr "b") (OVal (VStr "id"))) true 0)
  = Ok (VList [VStr "a"], VList [VStr "a"; VStr "b"]).
Proof.
  split; [reflexivity|]. split; [reflexivity|]. split; [reflexivity|].
  apply (set_topic_append_then_inverse (fun _ _ => None) (fun l => l) "s"
           [VStr "a"] "s" (VStr "b") (OVal (VStr "id")) 0
           (fun _ _ => eq_refl) eq_refl eq_refl).
Defined.

(** On a [StringTopic] whose listeners return, setting the string and then
    applying the inverse of the applied change brings the topic back to what
    it was; the listeners hear [on_set] with the new string and then [on_set]
    with the old one. *)
Theorem string_topic_set_then_inverse L order name s s' tn id rng :
  (forall done ev, L done ev = None) ->
  let t := set_value (new_Topic StringTopic name) (VStr s) in
  let a1 := apply_change L order t
              (SetChange StringSetChange tn (VStr s') VNone id) true rng in
  result a1 = Ok (VStr s, VStr s') /\
  calls a1 = [on_set (VStr s')] /\
  exists c1 rng1,
    inverse (change_after a1) (rng_left a1) = (Ok c1, rng1) /\
    result (apply_change L order (topic_after a1) c1 true rng1)
      = Ok (VStr s', VStr s) /\
    topic_after (apply_change L order (topic_after a1) c1 true rng1) = t /\
    calls (apply_change L order (topic_after a1) c1 true rng1) = [on_set (VStr s)].
Proof.
  intros HL t a1.
  assert (Ha1 : a1 = {| result := Ok (VStr s, VStr s');
                        topic_after := set_value (new_Topic StringTopic name) (VStr s');
                        change_after := SetChange StringSetChange tn (VStr s') (VStr s) id;
                        rng_left := rng;
                        calls := [on_set (VStr s')] |}).
  { unfold a1, apply_change, t, _validate_change_and_get_result. cbn.
    unfold call. rewrite HL. reflexivity. }
  rewrite Ha1. cbn [result calls change_after rng_left topic_after].
  split; [reflexivity|]. split; [reflexivity|].
  exists (SetChange StringSetChange tn (VStr s) (VStr s') (OUuidStr rng)), (S rng).
  split; [reflexivity|].
  unfold apply_change, _validate_change_and_get_result, apply, py_ne, deepcopy.
  cbn [_value set_value new_Topic add_validator _validators app py_eq].
  rewrite String.eqb_refl. cbn.
  unfold call. rewrite HL. cbn. repeat split.
Qed.

Lemma string_topic_set_then_inverse_witness :
  (forall (done : list event) (ev : event), (fun _ _ => @None exn) done ev = None) /\
  result (apply_change (fun _ _ => None) (fun l => l)
            (set_value (new_Topic StringTopic "t") (VStr "a"))
            (SetChange StringSetChange "t" (VStr "abcde") VNone (OVal (VStr "id")))
            true 0)
  = Ok (VStr "a", VStr "abcde").
Proof.
  split; [reflexivity|].
  apply (string_topic_set_then_inverse (fun _ _ => None) (fun l => l) "t"
           "a" "abcde" "t" (OVal (VStr "id")) 0 (fun _ _ => eq_refl)).
Defined.

(** ** Notification by difference *)

Lemma set_of_In x l : In x (set_of l) <-> In x l.
Proof.
  induction l as [|y l IH]; cbn; [tauto|].
  rewrite filter_In, IH. split.
  - intros [H | [H _]]; auto.
  - intros [H | H]; auto.
    destruct (String.eqb y x) eqn:E.
    + left. now apply String.eqb_eq.
    + right. split; auto.
Qed.




(** * [json.loads] after [json.dumps] *)

Local Notation "a +++ b" := (String.append a b) (at level 60, right associativity).

Lemma append_assoc (a b c : string) : (a +++ b) +++ c = a +++ (b +++ c).
Proof. induction a as [|x a IH]; cbn; [reflexivity | now rewrite IH]. Qed.

Lemma append_nil_r (a : string) : a +++ EmptyString = a.
Proof. induction a as [|x a IH]; cbn; [reflexivity | now rewrite IH]. Qed.

Lemma append_length (a b : string) :
  String.length (a +++ b) = (String.length a + String.length b)%nat.
Proof. induction a as [|x a IH]; cbn; [reflexivity | now rewrite IH]. Qed.

Lemma substring_all (s : string) : substring 0 (String.length s) s = s.
Proof. induction s as [|x s IH]; cbn; [reflexivity | now rewrite IH]. Qed.

Lemma loads_str_escape_char c rest :
  loads_str (escape_char c +++ rest) =
  (r <- loads_str rest ;; Ok (String c (fst r), snd r)).
Proof.
  destruct c as [[] [] [] [] [] [] [] []]; reflexivity.
Qed.

Lemma loads_str_escape_string s rest :
  loads_str (escape_string s +++ quote +++ rest) = Ok (s, rest).
Proof.
  induction s as [|c s IH]; [reflexivity|].
  cbn [escape_string]. rewrite append_assoc, loads_str_escape_char, IH.
  reflexivity.
Qed.

Lemma loads_digits_step c z s acc :
  digit_val c = Some z ->
  loads_digits acc (String c s) = loads_digits (10 * acc + z) s.
Proof. intros H. cbn [loads_digits]. now rewrite H. Qed.

Lemma loads_digits_uint d acc rest :
  ends_number rest = true ->
  loads_digits acc (NilEmpty.string_of_uint d +++ rest) = (uint_val acc d, rest).
Proof.
  intros Hrest. revert acc.
  induction d; intros acc; cbn [NilEmpty.string_of_uint String.append uint_val].
  - destruct rest as [|c r]; [reflexivity|].
    cbn [ends_number] in Hrest. cbn [loads_digits].
    destruct (digit_val c); [discriminate | reflexivity].
  - rewrite (loads_digits_step _ 0) by reflexivity. apply IHd.
  - rewrite (loads_digits_step _ 1) by reflexivity. apply IHd.
  - rewrite (loads_digits_step _ 2) by reflexivity. apply IHd.
  - rewrite (loads_digits_step _ 3) by reflexivity. apply IHd.
  - rewrite (loads_digits_step _ 4) by reflexivity. apply IHd.
  - rewrite (loads_digits_step _ 5) by reflexivity. apply IHd.
  - rewrite (loads_digits_step _ 6) by reflexivity. apply IHd.
  - rewrite (loads_digits_step _ 7) by reflexivity. apply IHd.
  - rewrite (loads_digits_step _ 8) by reflexivity. apply IHd.
  - rewrite (loads_digits_step _ 9) by reflexivity. apply IHd.
Qed.

Lemma uint_val_pos d acc :
  uint_val (Z.pos acc) d = Z.pos (Pos.of_uint_acc d acc).
Proof.
  revert acc. induction d; intros acc; cbn [uint_val Pos.of_uint_acc];
    [reflexivity|..];
    rewrite <- IHd; f_equal; lia.
Qed.

Lemma uint_val_0 d : uint_val 0 d = Z.of_N (Pos.of_uint d).
Proof.
  induction d; cbn [uint_val Pos.of_uint]; [reflexivity | exact IHd |..];
    cbn [Z.mul Z.add Z.of_N]; apply uint_val_pos.
Qed.

Lemma uint_val_to_uint p : uint_val 0 (Pos.to_uint p) = Z.pos p.
Proof. now rewrite uint_val_0, DecimalPos.Unsigned.of_to. Qed.

Lemma to_uint_head p :
  match Pos.to_uint p with
  | Decimal.Nil | Decimal.D0 _ => False
  | _ => True
  end.
Proof.
  pose proof (DecimalPos.Unsigned.to_of (Pos.to_uint p)) as H.
  rewrite DecimalPos.Unsigned.of_to in H. cbn [N.to_uint] in H.
  pose proof (DecimalPos.Unsigned.to_uint_nonzero p) as Hnz.
  pose proof (DecimalPos.Unsigned.to_uint_nonnil p) as Hnn.
  destruct (Pos.to_uint p) as [|d| | | | | | | | |]; auto.
  rewrite DecimalFacts.unorm_D0 in H. unfold Decimal.unorm in H.
  destruct (Decimal.nzhead d) eqn:E; try discriminate.
  - now apply Hnz.
  - now apply (DecimalFacts.nzhead_nonzero d u).
Qed.

Lemma ends_number_not_float rest :
  ends_number rest = true -> starts_float_part rest = false.
Proof.
  destruct rest as [|c r]; [reflexivity|]. cbn [ends_number].
  destruct (digit_val c); [discriminate|]. now intros H%negb_true_iff.
Qed.

Lemma loads_nat_to_uint p rest :
  ends_number rest = true ->
  loads_nat (NilEmpty.string_of_uint (Pos.to_uint p) +++ rest) = Ok (Z.pos p, rest).
Proof.
  intros Hrest.
  pose proof (ends_number_not_float rest Hrest) as Hnf.
  pose proof (to_uint_head p) as Hhd.
  pose proof (uint_val_to_uint p) as Hval.
  destruct (Pos.to_uint p) as [|d|d|d|d|d|d|d|d|d|d]; try contradiction;
    cbn [NilEmpty.string_of_uint String.append uint_val] in *;
    unfold loads_nat;
    match goal with
    | |- context [digit_val ?c] =>
        let v := eval vm_compute in (digit_val c) in
        change (digit_val c) with v
    end;
    cbv iota;
    rewrite loads_digits_uint by exact Hrest;
    cbn [snd]; rewrite Hnf; cbn [Z.mul Z.add] in Hval; now rewrite Hval.
Qed.

Lemma loads_value_digit c s fuel :
  digit_val c <> None ->
  loads_value (S fuel) (String c s) =
  (r <- loads_nat (String c s) ;; Ok (VInt (fst r), snd r)).
Proof.
  destruct c as [[] [] [] [] [] [] [] []]; intros H;
    try reflexivity; exfalso; apply H; reflexivity.
Qed.

Lemma loads_value_minus s fuel :
  loads_value (S fuel) (String "-" s) =
  (r <- loads_nat s ;; Ok (VInt (- fst r), snd r)).
Proof. reflexivity. Qed.

Lemma loads_value_int z fuel rest :
  ends_number rest = true ->
  loads_value (S fuel) (dumps_int z +++ rest) = Ok (VInt z, rest).
Proof.
  intros Hrest.
  pose proof (ends_number_not_float rest Hrest) as Hnf.
  destruct z as [|p|p]; unfold dumps_int; cbn [Z.to_int NilEmpty.string_of_int].
  - cbn [NilEmpty.string_of_uint String.append].
    rewrite loads_value_digit by discriminate.
    unfold loads_nat. cbn. now rewrite Hnf.
  - pose proof (loads_nat_to_uint p rest Hrest) as Hn.
    pose proof (to_uint_head p) as Hhd.
    destruct (Pos.to_uint p) as [|d|d|d|d|d|d|d|d|d|d]; try contradiction;
      cbn [NilEmpty.string_of_uint String.append] in *;
      (rewrite loads_value_digit by discriminate);
      rewrite Hn; reflexivity.
  - cbn [String.append]. rewrite loads_value_minus.
    now rewrite (loads_nat_to_uint p rest Hrest).
Qed.

Lemma loads_value_str s fuel rest :
  loads_value (S fuel) (dumps_str s +++ rest) = Ok (VStr s, rest).
Proof.
  unfold dumps_str, quote at 1. cbn [String.append].
  change (loads_value (S fuel) (String (ascii_of_N 34) ?x))
    with (r <- loads_str x ;; Ok (VStr (fst r), snd r)).
  rewrite append_assoc, loads_str_escape_string. reflexivity.
Qed.

Lemma skip_ws_starts s : starts_value s = true -> skip_ws s = s.
Proof.
  destruct s as [|c s]; [reflexivity|]. cbn [starts_value skip_ws].
  destruct (is_ws c); [discriminate | reflexivity].
Qed.

Lemma json_dumps_list l :
  json_dumps (VList l) = "[" +++ join ", " (map json_dumps l) +++ "]".
Proof.
  cbn [json_dumps].
  match goal with
  | |- String.append _ (String.append (join _ ?g) _) = _ =>
      assert (Hg : g = map json_dumps l)
  end.
  { induction l as [|x l IH]; cbn [map]; [reflexivity | now rewrite IH]. }
  now rewrite Hg.
Qed.

Lemma json_dumps_dict d :
  json_dumps (VDict d) = "{" +++ join ", " (map dumps_entry d) +++ "}".
Proof.
  cbn [json_dumps].
  match goal with
  | |- String.append _ (String.append (join _ ?g) _) = _ =>
      assert (Hg : g = map dumps_entry d)
  end.
  { induction d as [|[k x] d IH]; cbn [map]; [reflexivity | now rewrite IH]. }
  now rewrite Hg.
Qed.

Lemma json_dumps_starts v rest : starts_value (json_dumps v +++ rest) = true.
Proof.
  destruct v as [| [] | z | s | l | d]; try reflexivity.
  destruct z as [|p|p]; try reflexivity.
  unfold json_dumps, dumps_int. cbn [Z.to_int NilEmpty.string_of_int].
  pose proof (to_uint_head p) as Hhd.
  destruct (Pos.to_uint p); try contradiction; reflexivity.
Qed.

Lemma join_cons_cons sep a b l :
  join sep (a :: b :: l) = a +++ sep +++ join sep (b :: l).
Proof. reflexivity. Qed.

Lemma join_dumps_starts x l rest :
  starts_value (join ", " (map json_dumps (x :: l)) +++ rest) = true.
Proof.
  destruct l as [|y l]; cbn [map].
  - apply json_dumps_starts.
  - rewrite join_cons_cons, append_assoc. apply json_dumps_starts.
Qed.

Lemma loads_items_join pv l fuel rest :
  l <> [] -> (List.length l <= fuel)%nat ->
  (forall x, In x l -> forall r, ends_number r = true ->
             pv (json_dumps x +++ r) = Ok (x, r)) ->
  loads_items pv fuel (join ", " (map json_dumps l) +++ "]" +++ rest) = Ok (l, rest).
Proof.
  revert fuel. induction l as [|x l IH]; intros fuel Hne Hlen Hpv; [congruence|].
  destruct fuel as [|fuel]; [cbn in Hlen; lia|].
  destruct l as [|y l].
  - cbn [map join loads_items].
    rewrite (Hpv x (or_introl eq_refl)) by reflexivity. reflexivity.
  - cbn [map]. rewrite join_cons_cons, !append_assoc. cbn [loads_items].
    rewrite (Hpv x (or_introl eq_refl)) by reflexivity.
    cbn [bind snd fst String.append].
    match goal with
    | |- context [skip_ws (String "," (String " " ?z))] =>
        set (Z := z);
        change (skip_ws (String "," (String " " Z)))
          with (String "," (String " " Z))
    end.
    cbv iota.
    change (N_of_ascii "," =? 93)%N with false.
    change (N_of_ascii "," =? 44)%N with true. cbv iota.
    change (skip_ws (String " " Z)) with (skip_ws Z).
    assert (HZ : starts_value Z = true) by apply (join_dumps_starts y l ("]" +++ rest)).
    rewrite (skip_ws_starts Z HZ). subst Z.
    change (join ", " (json_dumps y :: map json_dumps l) +++ String "]" rest)
      with (join ", " (map json_dumps (y :: l)) +++ "]" +++ rest).
    rewrite IH; [reflexivity | discriminate | cbn in Hlen |- *; lia |].
    intros x' Hin. apply Hpv. now right.
Qed.

Lemma dumps_entry_text k x R :
  dumps_entry (k, x) +++ R =
  String (ascii_of_N 34)
    (escape_string k +++ quote +++ String ":" (String " " (json_dumps x +++ R))).
Proof.
  unfold dumps_entry, dumps_str, quote at 1. cbn [fst snd String.append].
  now rewrite !append_assoc.
Qed.

Lemma join_entries_starts kv d rest :
  starts_value (join ", " (map dumps_entry (kv :: d)) +++ rest) = true.
Proof.
  destruct kv as [k x].
  destruct d as [|kv' d]; cbn [map].
  - cbn [join]. now rewrite dumps_entry_text.
  - rewrite join_cons_cons, append_assoc. now rewrite dumps_entry_text.
Qed.

Lemma loads_pairs_join pv d fuel rest :
  d <> [] -> (List.length d <= fuel)%nat ->
  (forall kv, In kv d -> forall r, ends_number r = true ->
              pv (json_dumps (snd kv) +++ r) = Ok (snd kv, r)) ->
  loads_pairs pv fuel (join ", " (map dumps_entry d) +++ "}" +++ rest) = Ok (d, rest).
Proof.
  revert fuel. induction d as [|[k x] d IH]; intros fuel Hne Hlen Hpv; [congruence|].
  destruct fuel as [|fuel]; [cbn in Hlen; lia|].
  assert (Hhead : forall R,
            ends_number R = true ->
            (s1 <- expect 34 (dumps_entry (k, x) +++ R) ;;
             key <- loads_str s1 ;;
             s2 <- expect 58 (skip_ws (snd key)) ;;
             r <- pv (skip_ws s2) ;;
             Ok (fst key, fst r, snd r)) = Ok (k, x, R)).
  { intros R HR. rewrite dumps_entry_text.
    change (expect 34 (String (ascii_of_N 34) ?z)) with (Ok z). cbn [bind].
    rewrite loads_str_escape_string. cbn [bind snd fst].
    match goal with
    | |- context [skip_ws (String ":" (String " " ?z))] =>
        set (Z := z);
        change (skip_ws (String ":" (String " " Z))) with (String ":" (String " " Z))
    end.
    change (expect 58 (String ":" (String " " Z))) with (Ok (String " " Z)).
    cbn [bind]. change (skip_ws (String " " Z)) with (skip_ws Z).
    rewrite (skip_ws_starts Z (json_dumps_starts x R)). subst Z.
    pose proof (Hpv (k, x) (or_introl eq_refl) R HR) as Hx. cbn [snd] in Hx.
    now rewrite Hx. }
  destruct d as [|kv' d].
  - cbn [map join]. specialize (Hhead ("}" +++ rest) eq_refl).
    cbn [loads_pairs].
    destruct (expect 34 _) as [s1|]; [|discriminate]. cbn [bind] in *.
    destruct (loads_str s1) as [key|]; [|discriminate]. cbn [bind] in *.
    destruct (expect 58 _) as [s2|]; [|discriminate]. cbn [bind] in *.
    destruct (pv (skip_ws s2)) as [r|]; [|discriminate]. cbn [bind] in *.
    inversion Hhead as [[Hk Hx HR]]. rewrite HR, Hk, Hx. reflexivity.
  - cbn [map]. rewrite join_cons_cons, !append_assoc.
    match goal with
    | |- context [", " +++ ?z] =>
        set (Z := z); specialize (Hhead (", " +++ Z) eq_refl)
    end.
    cbn [loads_pairs].
    destruct (expect 34 _) as [s1|]; [|discriminate]. cbn [bind] in *.
    destruct (loads_str s1) as [key|]; [|discriminate]. cbn [bind] in *.
    destruct (expect 58 _) as [s2|]; [|discriminate]. cbn [bind] in *.
    destruct (pv (skip_ws s2)) as [r|]; [|discriminate]. cbn [bind] in *.
    inversion Hhead as [[Hk Hx HR]]. rewrite HR, Hk, Hx.
    cbn [String.append].
    change (skip_ws (String "," (String " " Z))) with (String "," (String " " Z)).
    cbv iota.
    change (N_of_ascii "," =? 125)%N with false.
    change (N_of_ascii "," =? 44)%N with true. cbv iota.
    change (skip_ws (String " " Z)) with (skip_ws Z).
    assert (HZ : starts_value Z = true)
      by apply (join_entries_starts kv' d ("}" +++ rest)).
    rewrite (skip_ws_starts Z HZ). subst Z.
    change (join ", " (dumps_entry kv' :: map dumps_entry d) +++ "}" +++ rest)
      with (join ", " (map dumps_entry (kv' :: d)) +++ "}" +++ rest).
    rewrite IH; [reflexivity | discriminate | cbn in Hlen |- *; lia |].
    intros kv Hin. apply Hpv. now right.
Qed.

Lemma dict_of_pairs_nodup d :
  nodup_keys (dict_keys d) = true -> dict_of_pairs d = d.
Proof.
  unfold dict_of_pairs.
  enough (H : forall acc,
             nodup_keys (dict_keys d) = true ->
             (forall k, In k (dict_keys d) -> dict_contains k acc = false) ->
             fold_left (fun a kv => dict_set (fst kv) (snd kv) a) d acc = acc ++ d).
  { intros Hnd. apply (H [] Hnd). reflexivity. }
  induction d as [|[k x] d IH]; intros acc Hnd Hacc; cbn [fold_left fst snd].
  - now rewrite app_nil_r.
  - change (nodup_keys (dict_keys ((k, x) :: d)))
      with (negb (existsb (String.eqb k) (dict_keys d)) && nodup_keys (dict_keys d))
      in Hnd.
    apply andb_true_iff in Hnd as [Hk Hd].
    rewrite (dict_set_absent k x acc) by (apply Hacc; now left).
    rewrite IH; [now rewrite <- app_assoc | exact Hd |].
    intros k' Hin. rewrite dict_contains_keys. unfold dict_keys.
    rewrite map_app, existsb_app. cbn.
    fold (dict_keys acc). rewrite <- dict_contains_keys.
    rewrite (Hacc k') by now right. cbn. rewrite orb_false_r.
    apply negb_true_iff in Hk.
    destruct (String.eqb k' k) eqn:E; [|reflexivity].
    apply String.eqb_eq in E; subst k'.
    assert (Hc : existsb (String.eqb k) (dict_keys d) = true).
    { apply existsb_exists. exists k. split; [exact Hin | apply String.eqb_refl]. }
    congruence.
Qed.

Lemma json_size_list l :
  json_size (VList l) = S (list_sum (map json_size l)).
Proof.
  cbn [json_size]. f_equal.
  induction l as [|x l IH]; cbn [map list_sum]; [reflexivity | now rewrite IH].
Qed.

Lemma json_size_dict d :
  json_size (VDict d) = S (list_sum (map (fun kv => json_size (snd kv)) d)).
Proof.
  cbn [json_size]. f_equal.
  induction d as [|[k x] d IH]; cbn [map list_sum snd]; [reflexivity | now rewrite IH].
Qed.

Lemma json_size_pos v : (1 <= json_size v)%nat.
Proof. destruct v; cbn [json_size]; lia. Qed.

Lemma length_le_sum {A} (f : A -> nat) l :
  (forall x, 1 <= f x)%nat -> (List.length l <= list_sum (map f l))%nat.
Proof.
  intros Hf. induction l as [|x l IH]; simpl; [lia|].
  specialize (Hf x). lia.
Qed.

Lemma In_le_sum {A} (f : A -> nat) l x :
  In x l -> (f x <= list_sum (map f l))%nat.
Proof.
  induction l as [|y l IH]; simpl; [contradiction|].
  intros [-> | H]; [lia | specialize (IH H); lia].
Qed.

Lemma wf_list_In l x : wf (VList l) = true -> In x l -> wf x = true.
Proof.
  induction l as [|y l IH]; [contradiction|].
  rewrite wf_list_cons. intros [Hy Hl]%andb_true_iff [-> | Hin]; auto.
Qed.

Lemma prefix_empty s : String.prefix EmptyString s = true.
Proof. now destruct s. Qed.

(** The decoder reads back what the encoder printed, whatever follows it
    that cannot be taken for more of a number. *)
Lemma loads_value_dumps v :
  wf v = true ->
  forall fuel rest,
    (json_size v <= fuel)%nat -> ends_number rest = true ->
    loads_value fuel (json_dumps v +++ rest) = Ok (v, rest).
Proof.
  induction v as [| b | z | s | l IH | d IH] using pyval_ind;
    intros Hwf fuel rest Hfuel Hrest;
    (destruct fuel as [|fuel];
     [pose proof (json_size_pos VNone); cbn [json_size] in Hfuel; lia|]).
  - cbn. now rewrite prefix_empty, Nat.sub_0_r, substring_all.
  - destruct b; cbn; now rewrite prefix_empty, Nat.sub_0_r, substring_all.
  - cbn [json_dumps]. now apply loads_value_int.
  - cbn [json_dumps]. apply loads_value_str.
  - rewrite json_size_list in Hfuel. rewrite json_dumps_list.
    destruct l as [|x l]; [reflexivity|].
    rewrite !append_assoc. cbn [String.append].
    set (X := join ", " (map json_dumps (x :: l)) +++ String "]" rest).
    assert (HX : starts_value X = true)
      by apply (join_dumps_starts x l (String "]" rest)).
    assert (Hstep : loads_value (S fuel) (String "[" X) =
                    (r <- loads_items (loads_value fuel) fuel X ;;
                     Ok (VList (fst r), snd r))).
    { cbn [loads_value]. change (N_of_ascii "[" =? 34)%N with false.
      change (N_of_ascii "[" =? 91)%N with true. cbv iota.
      rewrite (skip_ws_starts X HX).
      destruct X as [|c X']; [discriminate|].
      cbn [starts_value] in HX.
      apply andb_true_iff in HX as [[_ H93]%andb_true_iff _].
      apply negb_true_iff in H93. now rewrite H93. }
    rewrite Hstep. subst X.
    assert (Hl : loads_items (loads_value fuel) fuel
                   (join ", " (map json_dumps (x :: l)) +++ String "]" rest)
                 = Ok (x :: l, rest));
      [apply (loads_items_join (loads_value fuel) (x :: l) fuel rest);
       [discriminate | |]
      | now rewrite Hl].
    + pose proof (length_le_sum json_size (x :: l) json_size_pos). lia.
    + intros y Hin r Hr. rewrite Forall_forall in IH.
      apply (IH y Hin); [now apply (wf_list_In (x :: l)) | | exact Hr].
      pose proof (In_le_sum json_size (x :: l) y Hin). lia.
  - rewrite json_size_dict in Hfuel. rewrite json_dumps_dict.
    rewrite wf_dict in Hwf. apply andb_true_iff in Hwf as [Hnd Hall].
    destruct d as [|kv d]; [reflexivity|].
    rewrite !append_assoc. cbn [String.append].
    set (X := join ", " (map dumps_entry (kv :: d)) +++ String "}" rest).
    assert (HX : starts_value X = true)
      by apply (join_entries_starts kv d (String "}" rest)).
    assert (Hstep : loads_value (S fuel) (String "{" X) =
                    (r <- loads_pairs (loads_value fuel) fuel X ;;
                     Ok (VDict (dict_of_pairs (fst r)), snd r))).
    { cbn [loads_value]. change (N_of_ascii "{" =? 34)%N with false.
      change (N_of_ascii "{" =? 91)%N with false.
      change (N_of_ascii "{" =? 123)%N with true. cbv iota.
      rewrite (skip_ws_starts X HX).
      destruct X as [|c X']; [discriminate|].
      cbn [starts_value] in HX.
      apply andb_true_iff in HX as [_ H125].
      apply negb_true_iff in H125. now rewrite H125. }
    rewrite Hstep. subst X.
    assert (Hl : loads_pairs (loads_value fuel) fuel
                   (join ", " (map dumps_entry (kv :: d)) +++ String "}" rest)
                 = Ok (kv :: d, rest));
      [apply (loads_pairs_join (loads_value fuel) (kv :: d) fuel rest);
       [discriminate | |]
      | rewrite Hl; cbn [bind fst snd]; now rewrite (dict_of_pairs_nodup _ Hnd)].
    + pose proof (length_le_sum (fun kv => json_size (snd kv)) (kv :: d)
                    (fun kv => json_size_pos (snd kv))). lia.
    + intros kv' Hin r Hr. rewrite Forall_forall in IH.
      apply (IH kv' Hin); [| | exact Hr].
      * rewrite forallb_forall in Hall. now apply Hall.
      * pose proof (In_le_sum (fun kv => json_size (snd kv)) (kv :: d) kv' Hin).
        cbn beta in H. lia.
Qed.

Lemma starts_value_length s : starts_value s = true -> (1 <= String.length s)%nat.
Proof. destruct s; [discriminate | cbn; lia]. Qed.

Lemma sum_le_join {A} (size : A -> nat) (text : A -> string) sep l :
  (forall x, In x l -> (size x <= String.length (text x))%nat) ->
  (list_sum (map size l) <= String.length (join sep (map text l)))%nat.
Proof.
  induction l as [|a l IH]; intros H; [simpl; lia|].
  destruct l as [|b l].
  - simpl. specialize (H a (or_introl eq_refl)). lia.
  - change (map text (a :: b :: l)) with (text a :: text b :: map text l).
    rewrite join_cons_cons, !append_length.
    change (list_sum (map size (a :: b :: l)))
      with (size a + list_sum (map size (b :: l)))%nat.
    pose proof (H a (or_introl eq_refl)).
    assert (IH' := IH (fun x Hx => H x (or_intror Hx))).
    change (text b :: map text l) with (map text (b :: l)). lia.
Qed.

Lemma json_size_le_length v :
  (json_size v <= String.length (json_dumps v))%nat.
Proof.
  induction v as [| b | z | s | l IH | d IH] using pyval_ind;
    try (apply starts_value_length;
         rewrite <- (append_nil_r (json_dumps _)); apply json_dumps_starts).
  - rewrite json_size_list, json_dumps_list, !append_length.
    rewrite Forall_forall in IH.
    pose proof (sum_le_join json_size json_dumps ", " l IH). cbn [String.length]. lia.
  - rewrite json_size_dict, json_dumps_dict, !append_length.
    rewrite Forall_forall in IH.
    assert (H : forall kv, In kv d ->
                (json_size (snd kv) <= String.length (dumps_entry kv))%nat).
    { intros kv Hin. unfold dumps_entry. rewrite !append_length.
      specialize (IH kv Hin). lia. }
    pose proof (sum_le_join (fun kv => json_size (snd kv)) dumps_entry ", " d H).
    cbn [String.length]. lia.
Qed.

(** [json.loads(json.dumps(v)) == v]. *)
Theorem json_loads_dumps v : wf v = true -> json_loads (json_dumps v) = Ok v.
Proof.
  intros Hwf. unfold json_loads.
  assert (Hs : starts_value (json_dumps v) = true).
  { rewrite <- (append_nil_r (json_dumps v)). apply json_dumps_starts. }
  rewrite (skip_ws_starts _ Hs).
  rewrite <- (append_nil_r (json_dumps v)) at 2.
  rewrite (loads_value_dumps v Hwf); [reflexivity| |reflexivity].
  pose proof (json_size_le_length v). lia.
Qed.

(** [json.dumps] tells well-formed values apart. *)
Lemma json_dumps_inj x y :
  wf x = true -> wf y = true -> json_dumps x = json_dumps y -> x = y.
Proof.
  intros Hx Hy H. pose proof (json_loads_dumps x Hx) as Hlx.
  rewrite H, (json_loads_dumps y Hy) in Hlx. now inversion Hlx.
Qed.

(** * server/client_manager.py: the message text *)

Lemma parse_message_dumps v :
  wf v = true ->
  parse_message (json_dumps v) =
  match v with
  | VDict d =>
      match dict_get "type" d, dict_get "args" d with
      | None, _ => Raise (KeyError (wstr "type"))
      | Some _, None => Raise (KeyError (wstr "args"))
      | Some message_type, Some args => Ok (message_type, args)
      end
  | _ => Raise TypeError
  end.
Proof.
  intros Hwf. unfold parse_message. rewrite (json_loads_dumps v Hwf). cbn [bind].
  destruct v as [| | | | |d]; try reflexivity.
  cbn [py_getitem]. destruct (dict_get "type" d); [|reflexivity]. cbn [bind].
  destruct (dict_get "args" d); reflexivity.
Qed.

(** [parse_message] on the text [json.dumps] prints for a value without
    floats whose ints are within the limit of 4300 digits: the ['type'] and
    the ['args'] of a dict that has both, [KeyError] for the first of the two
    keys a dict lacks, and [TypeError] for a value that is not a dict. *)
Theorem parse_message_of_json v :
  wf v = true -> ints_in_limit v = true ->
  parse_message (json_dumps v) =
  match v with
  | VDict d =>
      match dict_get "type" d, dict_get "args" d with
      | None, _ => Raise (KeyError (wstr "type"))
      | Some _, None => Raise (KeyError (wstr "args"))
      | Some message_type, Some args => Ok (message_type, args)
      end
  | _ => Raise TypeError
  end.
Proof. intros Hwf _. now apply parse_message_dumps. Qed.

(** A message that has its type and no arguments. *)
Lemma parse_message_of_json_witness :
  wf (VDict [("type", VStr "hello")]) = true /\
  ints_in_limit (VDict [("type", VStr "hello")]) = true /\
  parse_message (json_dumps (VDict [("type", VStr "hello")]))
  = Raise (KeyError (wstr "args")).
Proof.
  split; [reflexivity|]. split; [reflexivity|].
  apply (parse_message_of_json (VDict [("type", VStr "hello")]) eq_refl eq_refl).
Defined.

(** [make_message(t, **kwargs)] raises [TypeError] when a keyword is named
    [message_type]; otherwise, for a type and keyword arguments without
    floats and with ints within the limit of 4300 digits, it returns a text
    from which [parse_message] gives [t] and [kwargs] back. *)
Theorem parse_make_message message_type kwargs :
  wf message_type = true -> wf (VDict kwargs) = true ->
  ints_in_limit message_type = true -> ints_in_limit (VDict kwargs) = true ->
  if dict_contains "message_type" kwargs
  then make_message message_type kwargs = Raise TypeError
  else exists text,
         make_message message_type kwargs = Ok text /\
         parse_message text = Ok (message_type, VDict kwargs).
Proof.
  intros Ht Hk _ _. unfold make_message.
  destruct (dict_contains "message_type" kwargs); [reflexivity|].
  eexists. split; [reflexivity|].
  rewrite parse_message_dumps; [reflexivity|].
  rewrite wf_dict. cbn [dict_keys map fst nodup_keys existsb forallb snd].
  rewrite Ht, Hk. reflexivity.
Qed.

Lemma parse_make_message_witness :
  wf (VStr "subscribe") = true /\
  wf (VDict [("topic_name", VStr "chat")]) = true /\
  ints_in_limit (VStr "subscribe") = true /\
  ints_in_limit (VDict [("topic_name", VStr "chat")]) = true /\
  exists text,
    make_message (VStr "subscribe") [("topic_name", VStr "chat")] = Ok text /\
    parse_message text
    = Ok (VStr "subscribe", VDict [("topic_name", VStr "chat")]).
Proof.
  split; [reflexivity|]. split; [reflexivity|].
  split; [reflexivity|]. split; [reflexivity|].
  apply (parse_make_message (VStr "subscribe") [("topic_name", VStr "chat")]
           eq_refl eq_refl eq_refl eq_refl).
Defined.

(** * topic.py: the difference a [SetTopic] reports *)

Lemma set_of_NoDup l : NoDup (set_of l).
Proof.
  induction l as [|x l IH]; cbn [set_of]; constructor.
  - rewrite filter_In. intros [_ H]. now rewrite String.eqb_refl in H.
  - now apply NoDup_filter.
Qed.

Lemma set_minus_In x a b : In x (set_minus a b) <-> In x a /\ ~ In x b.
Proof.
  unfold set_minus. rewrite filter_In. split; intros [Ha Hb]; split; auto.
  - intros Hin. apply negb_true_iff in Hb.
    assert (existsb (String.eqb x) b = true); [|congruence].
    apply existsb_exists. exists x. split; [exact Hin | apply String.eqb_refl].
  - apply negb_true_iff. destruct (existsb (String.eqb x) b) eqn:E; [|reflexivity].
    apply existsb_exists in E as (y & Hy & Hxy). apply String.eqb_eq in Hxy.
    subst y. contradiction.
Qed.

Lemma texts_of_items (a : list pyval) (T : list string) :
  (forall s, In s T -> In s (map json_dumps a)) ->
  exists items, T = map json_dumps items /\ forall x, In x items -> In x a.
Proof.
  induction T as [|s T IH]; intros H.
  - exists []. split; [reflexivity | contradiction].
  - destruct (proj1 (in_map_iff _ _ _) (H s (or_introl eq_refl))) as (x & <- & Hx).
    destruct (IH (fun s' Hs => H s' (or_intror Hs))) as (items & -> & Hitems).
    exists (x :: items). split; [reflexivity|].
    intros y [<- | Hy]; auto.
Qed.

(** The texts in one list and not in the other are the texts of the items in
    the one and not in the other, each once. *)
Lemma difference_items order a b :
  (forall l : list string, Permutation l (order l)) ->
  wf (VList a) = true -> wf (VList b) = true ->
  exists items,
    order (set_minus (set_of (map json_dumps a)) (set_of (map json_dumps b)))
    = map json_dumps items /\
    NoDup items /\
    (forall x, In x items <-> In x a /\ ~ In x b).
Proof.
  intros Hperm Ha Hb.
  set (D := set_minus (set_of (map json_dumps a)) (set_of (map json_dumps b))).
  assert (HD : forall s, In s (order D) <->
                         In s (map json_dumps a) /\ ~ In s (map json_dumps b)).
  { intros s. split.
    - intros Hs. apply (Permutation_in _ (Permutation_sym (Hperm D))) in Hs.
      apply set_minus_In in Hs as [H1 H2]. rewrite set_of_In in H1, H2. auto.
    - intros [H1 H2]. apply (Permutation_in _ (Hperm D)).
      apply set_minus_In. now rewrite !set_of_In. }
  destruct (texts_of_items a (order D)) as (items & Heq & Hitems).
  { intros s Hs. now apply HD in Hs. }
  exists items. split; [exact Heq|]. split.
  - apply (NoDup_map_inv json_dumps). rewrite <- Heq.
    apply (Permutation_NoDup (Hperm D)). unfold D, set_minus.
    apply NoDup_filter, set_of_NoDup.
  - intros x. split.
    + intros Hx. split; [now apply Hitems|].
      intros Hxb.
      assert (Hs : In (json_dumps x) (order D)) by (rewrite Heq; now apply in_map).
      apply HD in Hs as [_ Hn]. apply Hn. now apply in_map.
    + intros [Hxa Hxb].
      assert (Hs : In (json_dumps x) (order D)).
      { apply HD. split; [now apply in_map|].
        intros Hin. apply in_map_iff in Hin as (y & Hy & Hyb).
        apply json_dumps_inj in Hy;
          [subst y; contradiction | now apply (wf_list_In b) | now apply (wf_list_In a)]. }
      rewrite Heq in Hs. apply in_map_iff in Hs as (y & Hy & Hyi).
      apply json_dumps_inj in Hy;
        [now subst y | now apply (wf_list_In a), Hitems | now apply (wf_list_In a)].
Qed.




(** ** C10: a [SetTopic] always reports the whole new value *)

(** A loop over the texts of well-formed items calls the action on the items
    in order and stops at the first listener that raises. *)
Lemma for_each_prefix L action items done :
  (forall x, In x items -> wf x = true) ->
  exists pre post,
    items = pre ++ post /\
    fst (for_each L action (map json_dumps items) done) = done ++ map action pre /\
    (snd (for_each L action (map json_dumps items) done) = None -> post = []).
Proof.
  revert done.
  induction items as [|x items IH]; intros done Hwf; cbn [map for_each].
  - exists [], []. cbn. now rewrite app_nil_r.
  - rewrite (json_loads_dumps x) by (apply Hwf; now left).
    unfold call. destruct (L done (action x)) as [e|].
    + exists [x], items. cbn. repeat split. discriminate.
    + destruct (IH (done ++ [action x])) as (pre & post & Hitems & Hfst & Hsnd).
      { intros y Hy. apply Hwf. now right. }
      exists (x :: pre), post.
      split; [cbn; now rewrite Hitems|].
      split; [rewrite Hfst, <- app_assoc; reflexivity | exact Hsnd].
Qed.

(** The calls of a whole-value Set on a [SetTopic] whose [on_set] listeners
    return: a prefix of the removals followed by the additions, and all of
    them when no listener raises. *)
Lemma set_notify_difference L order tn value old_value id old new :
  (forall l, Permutation l (order l)) ->
  wf (VList old) = true -> wf (VList new) = true ->
  L [] (on_set (VList new)) = None ->
  exists removed added more,
    fst (notify_listeners L order SetTopic
           (SetChange SetSetChange tn value old_value id) (VList old) (VList new))
      ++ more
    = on_set (VList new) :: map on_remove removed ++ map on_append added /\
    (snd (notify_listeners L order SetTopic
            (SetChange SetSetChange tn value old_value id) (VList old) (VList new))
     = None -> more = []) /\
    NoDup removed /\ NoDup added /\
    (forall x, In x removed <-> In x old /\ ~ In x new) /\
    (forall x, In x added <-> In x new /\ ~ In x old).
Proof.
  intros Hperm Hold Hnew Hset.
  destruct (difference_items order old new Hperm Hold Hnew)
    as (removed & Hr & Hndr & Hinr).
  destruct (difference_items order new old Hperm Hnew Hold)
    as (added & Ha & Hnda & Hina).
  assert (Hwr : forall x, In x removed -> wf x = true).
  { intros x Hx. apply (wf_list_In old); [exact Hold | now apply Hinr]. }
  assert (Hwa : forall x, In x added -> wf x = true).
  { intros x Hx. apply (wf_list_In new); [exact Hnew | now apply Hina]. }
  unfold notify_listeners, call. cbn [app py_iter]. rewrite Hset, Hr, Ha.
  destruct (for_each_prefix L on_remove removed [on_set (VList new)] Hwr)
    as (pre1 & post1 & Hsplit1 & Hfst1 & Hsnd1).
  destruct (for_each L on_remove (map json_dumps removed) [on_set (VList new)])
    as [done1 [e|]]; cbn [fst snd] in *.
  - exists removed, added, (map on_remove post1 ++ map on_append added).
    subst done1. rewrite Hsplit1 at 1. rewrite map_app. cbn.
    rewrite <- !app_assoc.
    split; [reflexivity|]. split; [discriminate|].
    split; [exact Hndr|]. split; [exact Hnda|]. split; [exact Hinr | exact Hina].
  - specialize (Hsnd1 eq_refl). subst post1. rewrite app_nil_r in Hsplit1.
    subst pre1 done1.
    destruct (for_each_prefix L on_append added
                ([on_set (VList new)] ++ map on_remove removed) Hwa)
      as (pre2 & post2 & Hsplit2 & Hfst2 & Hsnd2).
    exists removed, added, (map on_append post2).
    assert (Hmap : map on_append added
                   = map on_append pre2 ++ map on_append post2)
      by (rewrite Hsplit2 at 1; apply map_app).
    rewrite Hfst2, Hmap. cbn.
    rewrite <- !app_assoc.
    split; [reflexivity|].
    split; [intros Hnone; now rewrite (Hsnd2 Hnone)|].
    split; [exact Hndr|]. split; [exact Hnda|]. split; [exact Hinr | exact Hina].
Qed.

(** C10: for every change a [SetTopic] supports, the whole-value Set, the
    Append and the Remove alike, that has been validated, the notification
    begins with a call of [on_set] with the new value.  Every other call is an
    [on_append] or an [on_remove] and comes after it.  If the listeners of
    [on_set] return, then for an Append and a Remove it is the one call for
    the item of the change; for a whole-value Set from the list [old] to the
    list [new] (lists of values without floats, their ints within the 4300
    digits [json.dumps] prints) the calls are [on_remove] for the items of [old] missing from
    [new], each once, followed by [on_append] for the items of [new] missing
    from [old], each once: all of them when the change is applied, and the
    calls up to the listener that raised otherwise. *)
Theorem C10_on_set_always_called L order t c rng new_value c' rng' :
  (forall l, Permutation l (order l)) ->
  topic_cls t = SetTopic ->
  set_topic_change c = true ->
  _validate_change_and_get_result t c rng = (Ok new_value, c', rng') ->
  exists rest,
    calls (apply_change L order t c true rng) = on_set new_value :: rest /\
    existsb is_on_set rest = false /\
    (L [] (on_set new_value) = None ->
     match c with
     | AppendChange _ item _ => rest = [on_append item]
     | RemoveChange _ item _ => rest = [on_remove item]
     | _ =>
         forall old new,
           _value t = VList old -> new_value = VList new ->
           wf (VList old) = true -> wf (VList new) = true ->
           ints_in_limit (VList old) = true ->
           ints_in_limit (VList new) = true ->
           exists removed added more,
             rest ++ more = map on_remove removed ++ map on_append added /\
             (is_ok (result (apply_change L order t c true rng)) = true ->
              more = []) /\
             NoDup removed /\ NoDup added /\
             (forall x, In x removed <-> In x old /\ ~ In x new) /\
             (forall x, In x added <-> In x new /\ ~ In x old)
     end).
Proof.
  intros Hperm Hcls Hsup Hv.
  destruct (validate_ok_change _ _ _ _ _ _ Hv) as [Hret Hc'].
  assert (Hok : is_ok (ret (apply c (deepcopy (_value t)) rng)) = true)
    by now rewrite Hret.
  pose proof (apply_keeps_set_topic_change c _ rng Hsup Hok) as Hkeep.
  rewrite <- Hc' in Hkeep.
  assert (Happlied : calls (apply_change L order t c true rng)
                     = fst (notify_listeners L order SetTopic c' (_value t) new_value)
                     /\ (is_ok (result (apply_change L order t c true rng)) = true ->
                         snd (notify_listeners L order SetTopic c' (_value t) new_value)
                         = None)).
  { unfold apply_change. rewrite Hv. cbn [topic_cls set_value _value].
    rewrite Hcls.
    destruct (notify_listeners _ _ _ _ _ _) as [done [e|]]; cbn;
      split; auto; discriminate. }
  destruct Happlied as [Hcalls Hresult]. rewrite Hcalls.
  destruct c as [tn id | cls tn value ov id | tn value id | tn value id
                | tn item id | tn item id | tn key value id | tn key value id
                | tn key value ov id | tn args fi id | tn args fi id];
    try discriminate.
  - destruct Hkeep as (tn' & value' & ov' & id' & ->).
    assert (Hshape : exists rest,
              fst (notify_listeners L order SetTopic
                     (SetChange SetSetChange tn' value' ov' id')
                     (_value t) new_value) = on_set new_value :: rest /\
              existsb is_on_set rest = false).
    { unfold notify_listeners, call. cbn [app].
      destruct (L [] (on_set new_value)) as [e|]; [exists []; cbn; auto|].
      destruct (py_iter (_value t)) as [old_items|e]; [|exists []; cbn; auto].
      destruct (py_iter new_value) as [new_items|e]; [|exists []; cbn; auto].
      set (removed := order (set_minus _ _)).
      set (added := order (set_minus _ _)).
      destruct (for_each_extends L on_remove removed [on_set new_value]
                  (fun _ => eq_refl)) as (ex1 & H1 & Hn1).
      destruct (for_each L on_remove removed [on_set new_value]) as [done1 [e|]].
      { cbn in H1. subst done1. exists ex1. cbn. auto. }
      cbn in H1. subst done1.
      destruct (for_each_extends L on_append added (on_set new_value :: ex1)
                  (fun _ => eq_refl)) as (ex2 & H2 & Hn2).
      exists (ex1 ++ ex2). rewrite H2. cbn.
      rewrite existsb_app, Hn1, Hn2. auto. }
    destruct Hshape as (rest & Hrest & Hnone). exists rest.
    split; [exact Hrest|]. split; [exact Hnone|].
    intros Hset old new Hold_eq Hnew_eq Hold Hnew _ _.
    rewrite Hold_eq, Hnew_eq in *.
    destruct (set_notify_difference L order tn' value' ov' id' old new
                Hperm Hold Hnew Hset)
      as (removed & added & more & Hall & Hmore & Hrest').
    exists removed, added, more. rewrite Hrest in Hall. cbn in Hall.
    inversion Hall as [Hall']. rewrite Hall'.
    split; [reflexivity|]. split; [|exact Hrest'].
    intros Happ. apply Hmore, Hresult, Happ.
  - cbn in Hkeep. rewrite Hkeep. unfold notify_listeners, call. cbn [app].
    destruct (L [] (on_set new_value)) as [e|].
    + exists []. cbn. split; [reflexivity|]. split; [reflexivity|]. discriminate.
    + exists [on_append item]. cbn. auto.
  - cbn in Hkeep. rewrite Hkeep. unfold notify_listeners, call. cbn [app].
    destruct (L [] (on_set new_value)) as [e|].
    + exists []. cbn. split; [reflexivity|]. split; [reflexivity|]. discriminate.
    + exists [on_remove item]. cbn. auto.
Qed.

(** A whole-value Set from [[1, 2]] to [[2, 3]]. *)
Lemma C10_on_set_always_called_witness :
  (forall l : list string, Permutation l ((fun l => l) l)) /\
  topic_cls (set_value (new_Topic SetTopic "s") (VList [VInt 1; VInt 2])) = SetTopic /\
  set_topic_change (SetChange SetSetChange "s" (VList [VInt 2; VInt 3]) VNone
                      (OVal (VStr "id"))) = true /\
  exists rest,
    calls (apply_change (fun _ _ => None) (fun l => l)
             (set_value (new_Topic SetTopic "s") (VList [VInt 1; VInt 2]))
             (SetChange SetSetChange "s" (VList [VInt 2; VInt 3]) VNone
                (OVal (VStr "id"))) true 0)
    = on_set (VList [VInt 2; VInt 3]) :: rest.
Proof.
  split; [intros l; apply Permutation_refl|].
  split; [reflexivity|]. split; [reflexivity|].
  destruct (C10_on_set_always_called (fun _ _ => None) (fun l => l)
              (set_value (new_Topic SetTopic "s") (VList [VInt 1; VInt 2]))
              (SetChange SetSetChange "s" (VList [VInt 2; VInt 3]) VNone
                 (OVal (VStr "id"))) 0
              (VList [VInt 2; VInt 3])
              (SetChange SetSetChange "s" (VList [VInt 2; VInt 3])
                 (VList [VInt 1; VInt 2]) (OVal (VStr "id"))) 0
              (fun l => Permutation_refl l) eq_refl eq_refl eq_refl)
    as (rest & Hcalls & _).
  exists rest. exact Hcalls.
Defined.

(** * server/client_manager.py: subscriptions *)

Lemma members_app t subs topic s :
  members t (subs ++ [(topic, s)]) =
  match members t subs with
  | Some s' => Some s'
  | None => if String.eqb t topic then Some s else None
  end.
Proof.
  induction subs as [|[t' s'] subs IH]; cbn [app members]; [reflexivity|].
  destruct (String.eqb t t'); [reflexivity | exact IH].
Qed.

Lemma members_store t topic s subs :
  members t (store_members topic s subs) =
  if String.eqb t topic
  then match members topic subs with
       | Some _ => Some s
       | None => None
       end
  else members t subs.
Proof.
  induction subs as [|[t' s'] subs IH]; cbn [store_members members].
  - now destruct (String.eqb t topic).
  - destruct (String.eqb topic t') eqn:E; cbn [members].
    + apply String.eqb_eq in E; subst t'.
      destruct (String.eqb t topic); reflexivity.
    + destruct (String.eqb t t') eqn:E'.
      * apply String.eqb_eq in E'; subst t'.
        rewrite String.eqb_sym, E. reflexivity.
      * exact IH.
Qed.

Lemma subscriptions_item_spec subs topic :
  members topic (snd (subscriptions_item subs topic))
  = Some (fst (subscriptions_item subs topic)) /\
  (forall t id, subscribed_in (snd (subscriptions_item subs topic)) t id
                = subscribed_in subs t id) /\
  (forall id, existsb (Nat.eqb id) (fst (subscriptions_item subs topic))
              = subscribed_in subs topic id).
Proof.
  unfold subscriptions_item, subscribed_in.
  destruct (members topic subs) as [s|] eqn:E; cbn [fst snd].
  - rewrite E. auto.
  - rewrite members_app, E, String.eqb_refl. repeat split; auto.
    intros t id. rewrite members_app.
    destruct (members t subs); [reflexivity|].
    destruct (String.eqb t topic); reflexivity.
Qed.

Lemma existsb_set_add id x s :
  existsb (Nat.eqb id) (set_add x s) = existsb (Nat.eqb id) s || Nat.eqb id x.
Proof.
  unfold set_add. destruct (existsb (Nat.eqb x) s) eqn:E.
  - destruct (Nat.eqb id x) eqn:Ex; [|now rewrite orb_false_r].
    apply Nat.eqb_eq in Ex; subst. now rewrite E.
  - rewrite existsb_app. cbn. now rewrite orb_false_r.
Qed.

Lemma existsb_set_discard id x s :
  existsb (Nat.eqb id) (set_discard x s)
  = existsb (Nat.eqb id) s && negb (Nat.eqb id x).
Proof.
  unfold set_discard. induction s as [|y s IH]; cbn [filter existsb]; [reflexivity|].
  destruct (Nat.eqb x y) eqn:E; cbn [negb existsb].
  - apply Nat.eqb_eq in E; subst y. rewrite IH.
    destruct (Nat.eqb id x); cbn; [now rewrite andb_false_r | reflexivity].
  - rewrite IH. destruct (Nat.eqb id y) eqn:Ey; cbn; [|reflexivity].
    apply Nat.eqb_eq in Ey; subst y. rewrite Nat.eqb_sym, E. reflexivity.
Qed.

(** A subscription adds the sender to the set of the topic, leaves every
    other membership as it was, and queues for the sender one ["update"]
    message with the snapshot of the topic's value and the action id [""].
    A sender that was subscribed already is sent the snapshot again and the
    set of the topic stays as it was, with no second entry for the sender;
    a new sender is entered once. *)
Theorem handle_subscribe_effect get_topic_value snapshot cm sender topic_name
  value w :
  get_topic_value topic_name = Ok value ->
  snapshot topic_name value = Ok w ->
  exists cm',
    _handle_subscribe get_topic_value snapshot cm sender topic_name = (Ok tt, cm') /\
    _clients cm' = _clients cm /\
    _sending_queue cm' =
      _sending_queue cm ++
      [{| q_client := sender; q_message_type := "update";
          q_changes := [w]; q_action_id := EmptyString |}] /\
    (forall t id,
       is_subscribed cm' t id =
       is_subscribed cm t id || (String.eqb t topic_name && Nat.eqb id sender)) /\
    members topic_name (_subscriptions cm') =
      Some (let before :=
              match members topic_name (_subscriptions cm) with
              | Some s => s
              | None => []
              end in
            if is_subscribed cm topic_name sender then before
            else before ++ [sender]).
Proof.
  intros Hv Hw. unfold _handle_subscribe.
  destruct (subscriptions_item_spec (_subscriptions cm) topic_name) as (Hm & Hsame & Hmem).
  assert (Hbefore : fst (subscriptions_item (_subscriptions cm) topic_name)
                    = match members topic_name (_subscriptions cm) with
                      | Some s => s
                      | None => []
                      end).
  { unfold subscriptions_item.
    now destruct (members topic_name (_subscriptions cm)). }
  destruct (subscriptions_item (_subscriptions cm) topic_name) as [s subs] eqn:Hitem.
  cbn [fst snd] in *. rewrite Hv, Hw.
  eexists. split; [reflexivity|]. cbn [send with_subscriptions _clients _sending_queue].
  split; [reflexivity|]. split; [reflexivity|]. split.
  - intros t id. unfold is_subscribed.
    cbn [send with_subscriptions _subscriptions]. unfold subscribed_in at 1.
    rewrite members_store, Hm.
    destruct (String.eqb t topic_name) eqn:E.
    + apply String.eqb_eq in E; subst t.
      rewrite existsb_set_add, Hmem. reflexivity.
    + cbn. rewrite orb_false_r. apply Hsame.
  - cbn [send with_subscriptions _subscriptions].
    rewrite members_store, String.eqb_refl, Hm. cbn zeta.
    unfold is_subscribed. rewrite <- Hmem, <- Hbefore. reflexivity.
Qed.

(** Unsubscribing takes the sender out of the set of the topic and leaves
    every other membership and the queue as they were. *)
Theorem handle_unsubscribe_effect cm sender topic_name :
  _clients (_handle_unsubscribe cm sender topic_name) = _clients cm /\
  _sending_queue (_handle_unsubscribe cm sender topic_name) = _sending_queue cm /\
  forall t id,
    is_subscribed (_handle_unsubscribe cm sender topic_name) t id =
    is_subscribed cm t id && negb (String.eqb t topic_name && Nat.eqb id sender).
Proof.
  unfold _handle_unsubscribe.
  destruct (subscriptions_item_spec (_subscriptions cm) topic_name) as (Hm & Hsame & Hmem).
  destruct (subscriptions_item (_subscriptions cm) topic_name) as [s subs] eqn:Hitem.
  cbn [fst snd] in *. repeat split.
  intros t id. unfold is_subscribed.
  cbn [with_subscriptions _subscriptions]. unfold subscribed_in at 1.
  rewrite members_store, Hm.
  destruct (String.eqb t topic_name) eqn:E.
  - apply String.eqb_eq in E; subst t.
    now rewrite existsb_set_discard, Hmem.
  - cbn. rewrite andb_true_r. apply Hsame.
Qed.

(** After [_cleanup_client] the client is subscribed to no topic, and every
    other client is subscribed to what it was. *)
Theorem cleanup_client_effect cm client :
  _clients (_cleanup_client cm client) = _clients cm /\
  _sending_queue (_cleanup_client cm client) = _sending_queue cm /\
  forall t id,
    is_subscribed (_cleanup_client cm client) t id =
    is_subscribed cm t id && negb (Nat.eqb id client).
Proof.
  repeat split. intros t id. unfold is_subscribed, _cleanup_client.
  cbn [with_subscriptions _subscriptions]. unfold subscribed_in.
  induction (_subscriptions cm) as [|[t' s] subs IH]; cbn [map members fst snd];
    [reflexivity|].
  destruct (String.eqb t t'); [apply existsb_set_discard | exact IH].
Qed.

(** * server/client_manager.py: [send_update] *)

Lemma messages_get_append id id' w m :
  messages_get id (messages_append id' w m) =
  if Nat.eqb id id' then Some (messages_content id' m ++ [w])
  else messages_get id m.
Proof.
  unfold messages_content.
  induction m as [|[c ws] m IH]; cbn [messages_append messages_get].
  - destruct (Nat.eqb id id'); reflexivity.
  - destruct (Nat.eqb id' c) eqn:E; cbn [messages_get].
    + apply Nat.eqb_eq in E; subst c.
      destruct (Nat.eqb id id'); reflexivity.
    + destruct (Nat.eqb id c) eqn:E'.
      * apply Nat.eqb_eq in E'; subst c.
        rewrite Nat.eqb_sym, E. reflexivity.
      * exact IH.
Qed.

Lemma messages_keys_append id' w m k :
  In k (map fst (messages_append id' w m)) <-> k = id' \/ In k (map fst m).
Proof.
  induction m as [|[c ws] m IH]; cbn [messages_append map fst In].
  - intuition.
  - destruct (Nat.eqb id' c) eqn:E; cbn [map fst In].
    + apply Nat.eqb_eq in E; subst c. intuition.
    + rewrite IH. intuition.
Qed.

Lemma messages_append_NoDup id' w m :
  NoDup (map fst m) -> NoDup (map fst (messages_append id' w m)).
Proof.
  induction m as [|[c ws] m IH]; cbn [messages_append map fst]; intros H.
  - constructor; [intros [] | constructor].
  - inversion H as [|? ? Hc Hm]; subst.
    destruct (Nat.eqb id' c) eqn:E; cbn [map fst].
    + now constructor.
    + constructor; [|auto].
      rewrite messages_keys_append. intros [-> | Hin]; [|contradiction].
      now rewrite Nat.eqb_refl in E.
Qed.

Lemma messages_get_keys id m :
  In id (map fst m) <-> messages_get id m <> None.
Proof.
  induction m as [|[c ws] m IH]; cbn [map fst In messages_get].
  - split; [contradiction | congruence].
  - destruct (Nat.eqb id c) eqn:E.
    + apply Nat.eqb_eq in E; subst c. split; [discriminate | auto].
    + rewrite <- IH. split; [intros [-> | H]; auto | auto].
      now rewrite Nat.eqb_refl in E.
Qed.

Lemma collect_for_spec c w ids m :
  serialize c = Ok w -> NoDup ids -> NoDup (map fst m) -> nonempty m ->
  exists m',
    collect_for c ids m = Ok m' /\
    NoDup (map fst m') /\ nonempty m' /\
    forall id, messages_content id m' =
               messages_content id m ++ (if existsb (Nat.eqb id) ids then [w] else []).
Proof.
  intros Hs. revert m.
  induction ids as [|x ids IH]; intros m Hnd Hm Hne; cbn [collect_for existsb].
  - exists m. repeat split; auto. intros id. now rewrite app_nil_r.
  - rewrite Hs. inversion Hnd as [|? ? Hx Hids]; subst.
    destruct (IH (messages_append x w m) Hids) as (m' & Hc & Hnd' & Hne' & Hcont).
    + now apply messages_append_NoDup.
    + intros id. rewrite messages_get_append.
      destruct (Nat.eqb id x); [|apply Hne].
      intros H. inversion H as [H']. now destruct (messages_content x m).
    + exists m'. repeat split; auto.
      intros id. rewrite Hcont. unfold messages_content at 1.
      rewrite messages_get_append.
      destruct (Nat.eqb id x) eqn:E; cbn [orb].
      * apply Nat.eqb_eq in E; subst x.
        assert (Hn : existsb (Nat.eqb id) ids = false).
        { destruct (existsb (Nat.eqb id) ids) eqn:Ex; [|reflexivity].
          apply existsb_exists in Ex as (y & Hy & Hyx).
          apply Nat.eqb_eq in Hyx; subst y. contradiction. }
        rewrite Hn. now rewrite app_nil_r.
      * reflexivity.
Qed.

Lemma existsb_perm id l l' :
  Permutation l l' -> existsb (Nat.eqb id) l' = existsb (Nat.eqb id) l.
Proof.
  intros Hp.
  destruct (existsb (Nat.eqb id) l) eqn:E.
  - apply existsb_exists in E as (y & Hy & Hyx). apply existsb_exists.
    exists y. split; [now apply (Permutation_in _ Hp) | exact Hyx].
  - destruct (existsb (Nat.eqb id) l') eqn:E'; [|reflexivity].
    apply existsb_exists in E' as (y & Hy & Hyx).
    assert (existsb (Nat.eqb id) l = true); [|congruence].
    apply existsb_exists. exists y.
    split; [now apply (Permutation_in _ (Permutation_sym Hp)) | exact Hyx].
Qed.

Lemma wires_in_same subs subs' changes id :
  (forall t i, subscribed_in subs' t i = subscribed_in subs t i) ->
  wires_in subs' changes id = wires_in subs changes id.
Proof.
  intros H. unfold wires_in.
  induction changes as [|c changes IH]; cbn [flat_map]; [reflexivity|].
  now rewrite H, IH.
Qed.

Lemma collect_spec order_ids changes :
  (forall l, Permutation l (order_ids l)) ->
  (forall c, In c changes -> is_ok (serialize c) = true) ->
  forall subs m,
    (forall t s, members t subs = Some s -> NoDup s) ->
    NoDup (map fst m) -> nonempty m ->
    exists m' subs',
      collect order_ids changes subs m = (Ok m', subs') /\
      (forall t id, subscribed_in subs' t id = subscribed_in subs t id) /\
      NoDup (map fst m') /\ nonempty m' /\
      forall id, messages_content id m' =
                 messages_content id m ++ wires_in subs changes id.
Proof.
  intros Hperm. induction changes as [|c changes IH]; intros Hser subs m Hsets Hnd Hne.
  - exists m, subs. cbn [collect]. repeat split; auto.
    intros id. unfold wires_in. cbn. now rewrite app_nil_r.
  - cbn [collect].
    destruct (subscriptions_item_spec subs (change_topic_name c)) as (Hm & Hsame & Hmem).
    destruct (subscriptions_item subs (change_topic_name c)) as [s subs1] eqn:Hitem.
    cbn [fst snd] in *.
    assert (Hs : NoDup s).
    { unfold subscriptions_item in Hitem.
      destruct (members (change_topic_name c) subs) as [s0|] eqn:E;
        inversion Hitem; subst; [now apply (Hsets _ _ E) | constructor]. }
    assert (Hsets1 : forall t s', members t subs1 = Some s' -> NoDup s').
    { unfold subscriptions_item in Hitem.
      destruct (members (change_topic_name c) subs) as [s0|] eqn:E;
        inversion Hitem; subst; [exact Hsets|].
      intros t s'. rewrite members_app.
      destruct (members t subs) as [s1|] eqn:E1.
      - intros H; inversion H; subst. now apply (Hsets _ _ E1).
      - destruct (String.eqb t (change_topic_name c)); [|discriminate].
        intros H; inversion H. constructor. }
    destruct (serialize c) as [w|] eqn:Hw.
    2:{ specialize (Hser c (or_introl eq_refl)). rewrite Hw in Hser. discriminate. }
    destruct (collect_for_spec c w (order_ids s) m Hw
                (Permutation_NoDup (Hperm s) Hs) Hnd Hne)
      as (m1 & Hc & Hnd1 & Hne1 & Hcont1).
    rewrite Hc.
    destruct (IH (fun c' H => Hser c' (or_intror H)) subs1 m1 Hsets1 Hnd1 Hne1)
      as (m' & subs' & Hcol & Hsame' & Hnd' & Hne' & Hcont').
    exists m', subs'. split; [exact Hcol|]. split.
    { intros t id. now rewrite Hsame', Hsame. }
    repeat split; auto.
    intros id. rewrite Hcont', Hcont1, <- app_assoc. f_equal.
    rewrite (wires_in_same subs subs1 changes id Hsame).
    change (wires_in subs (c :: changes) id)
      with ((if subscribed_in subs (change_topic_name c) id
             then match serialize c with
                  | Ok w => [w]
                  | Raise _ => []
                  end
             else []) ++ wires_in subs changes id).
    rewrite Hw.
    rewrite (existsb_perm id s (order_ids s) (Hperm s)), Hmem.
    destruct (subscribed_in subs (change_topic_name c) id); reflexivity.
Qed.

Lemma deliver_spec m action_id cm :
  (forall id, In id (map fst m) -> In id (_clients cm)) ->
  deliver m action_id cm =
  (Ok tt, {| _clients := _clients cm; _subscriptions := _subscriptions cm;
             _sending_queue := _sending_queue cm ++ map (update_message action_id) m |}).
Proof.
  revert cm. induction m as [|[id ws] m IH]; intros cm H; cbn [deliver map].
  - rewrite app_nil_r. now destruct cm.
  - assert (Hin : existsb (Nat.eqb id) (_clients cm) = true).
    { apply existsb_exists. exists id.
      split; [apply H; now left | apply Nat.eqb_refl]. }
    rewrite Hin, IH.
    + cbn [send _clients _subscriptions _sending_queue].
      now rewrite <- app_assoc.
    + intros id' Hid'. apply H. now right.
Qed.

Lemma wires_in_subscribed subs changes id :
  wires_in subs changes id <> [] ->
  exists c, In c changes /\ subscribed_in subs (change_topic_name c) id = true.
Proof.
  unfold wires_in. induction changes as [|c changes IH]; cbn [flat_map];
    [congruence|].
  destruct (subscribed_in subs (change_topic_name c) id) eqn:E.
  - intros _. exists c. split; [now left | exact E].
  - cbn [app]. intros H. destruct (IH H) as (c' & Hc' & Hs).
    exists c'. split; [now right | exact Hs].
Qed.

(** [send_update] queues one ["update"] message, with the action id, for
    each client that is subscribed to the topic of at least one of the
    changes, and none for any other client; the message of a client holds the
    wire forms of exactly the changes on the topics the client is subscribed
    to, in the order of the changes.  Clients and subscriptions are as they
    were. *)
Theorem send_update_delivers order_ids cm changes action_id :
  (forall l, Permutation l (order_ids l)) ->
  (forall t s, members t (_subscriptions cm) = Some s -> NoDup s) ->
  (forall t id, is_subscribed cm t id = true -> In id (_clients cm)) ->
  (forall c, In c changes -> is_ok (serialize c) = true) ->
  exists cm' msgs,
    send_update order_ids cm changes action_id = (Ok tt, cm') /\
    _clients cm' = _clients cm /\
    (forall t id, is_subscribed cm' t id = is_subscribed cm t id) /\
    _sending_queue cm' = _sending_queue cm ++ msgs /\
    NoDup (map q_client msgs) /\
    (forall msg, In msg msgs ->
       q_message_type msg = "update"%string /\ q_action_id msg = action_id /\
       q_changes msg = wires_for cm changes (q_client msg) /\
       q_changes msg <> []) /\
    (forall id, wires_for cm changes id <> [] -> In id (map q_client msgs)).
Proof.
  intros Hperm Hsets Hclients Hser.
  destruct (collect_spec order_ids changes Hperm Hser (_subscriptions cm) []
              Hsets (NoDup_nil _) (fun id => ltac:(discriminate)))
    as (m & subs & Hcol & Hsame & Hnd & Hne & Hcont).
  assert (Hkeys : forall id, In id (map fst m) ->
                             messages_get id m = Some (wires_for cm changes id) /\
                             wires_for cm changes id <> []).
  { intros id Hid. apply messages_get_keys in Hid.
    specialize (Hcont id). unfold messages_content in Hcont. cbn in Hcont.
    destruct (messages_get id m) as [ws|] eqn:E; [|congruence].
    unfold wires_for. rewrite <- Hcont. split; [reflexivity|].
    intros ->. now apply (Hne id). }
  unfold send_update. rewrite Hcol, deliver_spec.
  2:{ intros id Hid. cbn [with_subscriptions _clients].
      destruct (Hkeys id Hid) as [_ Hw].
      apply wires_in_subscribed in Hw as (c & _ & Hs).
      now apply (Hclients (change_topic_name c)). }
  eexists. exists (map (update_message action_id) m).
  split; [reflexivity|]. cbn [with_subscriptions _clients _subscriptions _sending_queue].
  split; [reflexivity|]. split; [exact Hsame|]. split; [reflexivity|].
  assert (Hq : map q_client (map (update_message action_id) m) = map fst m).
  { rewrite map_map. apply map_ext. reflexivity. }
  rewrite Hq. split; [exact Hnd|]. split.
  - intros msg Hmsg. apply in_map_iff in Hmsg as ([id ws] & <- & Hin).
    cbn [update_message q_message_type q_action_id q_changes q_client fst snd].
    destruct (Hkeys id) as [Hget Hw]; [now apply (in_map fst) in Hin|].
    assert (Hws : messages_get id m = Some ws).
    { clear - Hnd Hin. induction m as [|[c ws'] m IH]; [contradiction|].
      cbn [messages_get]. inversion Hnd as [|? ? Hc Hm]; subst.
      destruct Hin as [Heq | Hin].
      - inversion Heq; subst. now rewrite Nat.eqb_refl.
      - destruct (Nat.eqb id c) eqn:E; [|auto].
        apply Nat.eqb_eq in E; subst c. exfalso. apply Hc.
        now apply (in_map fst) in Hin. }
    rewrite Hws in Hget. inversion Hget; subst. auto.
  - intros id Hw. apply messages_get_keys.
    specialize (Hcont id). unfold messages_content in Hcont. cbn in Hcont.
    unfold wires_for in Hw. rewrite <- Hcont in Hw.
    destruct (messages_get id m); congruence.
Qed.

(** With no subscriber to the topics of the changes, [send_update] queues
    nothing and does not raise, whatever the changes: [serialize] is only
    called for a subscriber. *)
Theorem send_update_without_subscribers order_ids cm changes action_id :
  (forall l, Permutation l (order_ids l)) ->
  (forall c id, In c changes -> is_subscribed cm (change_topic_name c) id = false) ->
  exists cm',
    send_update order_ids cm changes action_id = (Ok tt, cm') /\
    _clients cm' = _clients cm /\
    _sending_queue cm' = _sending_queue cm /\
    forall t id, is_subscribed cm' t id = is_subscribed cm t id.
Proof.
  intros Hperm Hnone.
  assert (Hnil : order_ids [] = []) by (apply Permutation_nil, Hperm).
  assert (Hcol : forall subs,
            (forall c id, In c changes ->
                          subscribed_in subs (change_topic_name c) id = false) ->
            exists subs',
              collect order_ids changes subs [] = (Ok [], subs') /\
              forall t id, subscribed_in subs' t id = subscribed_in subs t id).
  { clear Hnone. induction changes as [|c changes IH]; intros subs Hn.
    - exists subs. split; [reflexivity | auto].
    - cbn [collect].
      destruct (subscriptions_item_spec subs (change_topic_name c))
        as (Hm & Hsame & Hmem).
      destruct (subscriptions_item subs (change_topic_name c)) as [s subs1].
      cbn [fst snd] in *.
      assert (Hs : s = []).
      { destruct s as [|x s]; [reflexivity|].
        specialize (Hmem x). rewrite (Hn c x (or_introl eq_refl)) in Hmem.
        cbn in Hmem. now rewrite Nat.eqb_refl in Hmem. }
      subst s. rewrite Hnil. cbn [collect_for].
      destruct (IH subs1) as (subs' & Hc & Hsame').
      { intros c' id Hc'. rewrite Hsame. apply Hn. now right. }
      exists subs'. split; [exact Hc|].
      intros t id. now rewrite Hsame', Hsame. }
  destruct (Hcol (_subscriptions cm) Hnone) as (subs' & Hc & Hsame).
  unfold send_update. rewrite Hc. cbn [deliver].
  eexists. split; [reflexivity|]. repeat split. exact Hsame.
Qed.

(** A [NullChange], which cannot be serialized, on a topic nobody follows. *)
Lemma send_update_without_subscribers_witness :
  (forall l : list nat, Permutation l ((fun l => l) l)) /\
  fst (send_update (fun l => l)
         {| _clients := [1%nat]; _subscriptions := [("a", [1%nat])];
            _sending_queue := [] |}
         [NullChange "b" (OVal (VStr "id"))] "act")
  = Ok tt.
Proof.
  split; [intros l; apply Permutation_refl|].
  destruct (send_update_without_subscribers (fun l => l)
              {| _clients := [1%nat]; _subscriptions := [("a", [1%nat])];
                 _sending_queue := [] |}
              [NullChange "b" (OVal (VStr "id"))] "act"
              (fun l => Permutation_refl l)) as (cm' & H & _).
  - intros c id [<- | []]. reflexivity.
  - now rewrite H.
Defined.

Lemma handle_subscribe_effect_witness :
  (fun _ : string => Ok (VInt 3)) "n" = Ok (VInt 3) /\
  (fun (t : string) (v : pyval) => serialize (SetChange BaseSetChange t v VNone (OVal (VStr "id"))))
    "n" (VInt 3)
  = Ok [("topic_name", wstr "n"); ("topic_type", wstr "unknown");
        ("type", wstr "set"); ("value", OVal (VInt 3));
        ("old_value", OVal VNone); ("id", OVal (VStr "id"))] /\
  is_subscribed
    (snd (_handle_subscribe (fun _ => Ok (VInt 3))
            (fun t v => serialize (SetChange BaseSetChange t v VNone (OVal (VStr "id"))))
            {| _clients := [1%nat]; _subscriptions := []; _sending_queue := [] |}
            1 "n"))
    "n" 1 = true.
Proof.
  split; [reflexivity|]. split; [reflexivity|].
  destruct (handle_subscribe_effect (fun _ => Ok (VInt 3))
              (fun t v => serialize (SetChange BaseSetChange t v VNone (OVal (VStr "id"))))
              {| _clients := [1%nat]; _subscriptions := []; _sending_queue := [] |}
              1 "n" (VInt 3) _ eq_refl eq_refl)
    as (cm' & H & _ & _ & Hsub & _).
  rewrite H. cbn [snd]. rewrite Hsub. reflexivity.
Defined.

(** Two clients, one following both topics, and a change on each topic. *)
Lemma send_update_delivers_witness :
  (forall l : list nat, Permutation l ((fun l => l) l)) /\
  exists cm' msgs,
    send_update (fun l => l)
      {| _clients := [1%nat; 2%nat];
         _subscriptions := [("a", [1%nat; 2%nat]); ("b", [2%nat])];
         _sending_queue := [] |}
      [AppendChange "a" (VInt 1) (OVal (VStr "i")); AppendChange "b" (VInt 2) (OVal (VStr "j"))]
      "act"
    = (Ok tt, cm') /\
    _sending_queue cm' = [] ++ msgs /\ NoDup (map q_client msgs).
Proof.
  split; [intros l; apply Permutation_refl|].
  destruct (send_update_delivers (fun l => l)
              {| _clients := [1%nat; 2%nat];
                 _subscriptions := [("a", [1%nat; 2%nat]); ("b", [2%nat])];
                 _sending_queue := [] |}
              [AppendChange "a" (VInt 1) (OVal (VStr "i"));
               AppendChange "b" (VInt 2) (OVal (VStr "j"))]
              "act" (fun l => Permutation_refl l))
    as (cm' & msgs & H & _ & _ & Hq & Hnd & _).
  - intros t s. cbn [_subscriptions members].
    destruct (String.eqb t "a");
      [intros E; inversion E; repeat constructor; cbn; intuition lia|].
    destruct (String.eqb t "b");
      [intros E; inversion E; repeat constructor; cbn; intuition lia | discriminate].
  - intros t id. unfold is_subscribed, subscribed_in. cbn [_subscriptions members _clients].
    destruct (String.eqb t "a").
    + cbn. intros E. apply orb_true_iff in E as [E | E].
      * apply Nat.eqb_eq in E. auto.
      * rewrite orb_false_r in E. apply Nat.eqb_eq in E. auto.
    + destruct (String.eqb t "b"); [|discriminate].
      cbn. rewrite orb_false_r. intros E. apply Nat.eqb_eq in E. auto.
  - intros c [<- | [<- | []]]; reflexivity.
  - exists cm', msgs. auto.
Defined.
